(** * speedtest-exporter: the measurement-and-cache core of [exporter.py]

    A shallow embedding of [runTest], [updateResults] and the helpers they
    call, together with the properties of the cache, of the failure
    sentinel, of the unit conversion and of the shutdown flag.

    Layout of the development:
    - [Py]        the fragment of Python's object model the parser touches
                  (values, exceptions, [int], [float], [in], [.get], [[]], [*]);
    - [Exporter]  the program: globals, [is_json], [runTest], the gauges and
                  [updateResults], first as one sequential function and then
                  as a line-by-line thread machine for the worker pool;
    - the theorems. *)

From Stdlib Require Import ZArith List String Ascii Bool Lia.
From Stdlib Require Import Floats.SpecFloat.
Import ListNotations.

Set Warnings "-register-all".

Local Open Scope string_scope.
Local Open Scope Z_scope.

(* ================================================================= *)
(** ** Python values *)

Module Py.

(** The exceptions [exporter.py] can meet.  [except (KeyError, TypeError)]
    matches exactly the first two: none of the others is a subclass of
    either.  [OSError] is what starting a process raises when it cannot,
    [RecursionError] what [json.loads] raises on a document nested too
    deep. *)
Inductive exn : Type :=
| KeyError
| TypeError
| ValueError
| AttributeError
| OverflowError
| OSError
| RecursionError.

(** A computation that returns or raises. *)
Inductive res (A : Type) : Type :=
| Ret (a : A)
| Raise (e : exn).
Arguments Ret {A} a.
Arguments Raise {A} e.

Definition bind {A B : Type} (m : res A) (k : A -> res B) : res B :=
  match m with
  | Ret a => k a
  | Raise e => Raise e
  end.

Declare Scope py_scope.
Delimit Scope py_scope with py.
Notation "x <- m ;; k" := (bind m (fun x => k))
  (at level 61, m at next level, right associativity) : py_scope.
Notation "m ;;; k" := (bind m (fun _ => k))
  (at level 61, right associativity) : py_scope.
Local Open Scope py_scope.

(** Python's [float] is IEEE binary64. *)
Definition float64 : Type := spec_float.
Definition prec : Z := 53.
Definition emax : Z := 1024.

(** What [json.loads] can build: [None], [bool], [int], [float], [str],
    [list] and [dict] with string keys.  A [str] is kept as the bytes of its
    UTF-8 encoding; a [dict] as the list of its items, first match wins. *)
Inductive value : Type :=
| PNone
| PBool (b : bool)
| PInt (z : Z)
| PFloat (f : float64)
| PStr (s : string)
| PList (l : list value)
| PDict (d : list (string * value)).

Fixpoint lookup (k : string) (d : list (string * value)) : option value :=
  match d with
  | [] => None
  | (k', v) :: d' => if String.eqb k k' then Some v else lookup k d'
  end.

(** [d[k]]: only a [dict] can be indexed by a [str]. *)
Definition getitem (d : value) (k : string) : res value :=
  match d with
  | PDict items =>
      match lookup k items with
      | Some v => Ret v
      | None => Raise KeyError
      end
  | _ => Raise TypeError
  end.

(** [d.get(k)]: only a [dict] has the method. *)
Definition get (d : value) (k : string) : res value :=
  match d with
  | PDict items =>
      match lookup k items with
      | Some v => Ret v
      | None => Ret PNone
      end
  | _ => Raise AttributeError
  end.

Fixpoint prefixb (p s : string) : bool :=
  match p, s with
  | EmptyString, _ => true
  | String a p', String b s' => Ascii.eqb a b && prefixb p' s'
  | String _ _, EmptyString => false
  end.

Fixpoint substringb (p s : string) : bool :=
  prefixb p s ||
  match s with
  | EmptyString => false
  | String _ s' => substringb p s'
  end.

Definition is_str (k : string) (v : value) : bool :=
  match v with
  | PStr s => String.eqb s k
  | _ => false
  end.

(** [k in d] for a string [k]: key of a [dict], element of a [list],
    substring of a [str]; the scalars are not iterable. *)
Definition contains (k : string) (d : value) : res bool :=
  match d with
  | PDict items =>
      Ret (match lookup k items with Some _ => true | None => false end)
  | PList l => Ret (existsb (is_str k) l)
  | PStr s => Ret (substringb k s)
  | _ => Raise TypeError
  end.

(** Truth value of an object, as [if r_status:] takes it. *)
Definition truthy (v : value) : bool :=
  match v with
  | PNone => false
  | PBool b => b
  | PInt z => negb (z =? 0)
  | PFloat (S754_zero _) => false
  | PFloat _ => true
  | PStr s => negb (String.eqb s EmptyString)
  | PList l => match l with [] => false | _ => true end
  | PDict d => match d with [] => false | _ => true end
  end.

(* ----------------------------------------------------------------- *)
(** *** [int(...)] *)

(** The white space [int] skips around the digits: tab to carriage
    return, and the space. *)
Definition is_space (c : ascii) : bool :=
  let n := Z.of_nat (nat_of_ascii c) in
  ((9 <=? n) && (n <=? 13)) || (n =? 32).

Fixpoint lstrip (s : string) : string :=
  match s with
  | String c s' => if is_space c then lstrip s' else s
  | EmptyString => EmptyString
  end.

Fixpoint rstrip (s : string) : string :=
  match s with
  | EmptyString => EmptyString
  | String c s' =>
      match rstrip s' with
      | EmptyString => if is_space c then EmptyString else String c EmptyString
      | r => String c r
      end
  end.

Definition digit_of (c : ascii) : option Z :=
  let n := Z.of_nat (nat_of_ascii c) in
  if (48 <=? n) && (n <=? 57) then Some (n - 48) else None.

(** Decimal digits, single underscores allowed between two digits. *)
Fixpoint digits (s : string) (acc : Z) (after_digit : bool) : option Z :=
  match s with
  | EmptyString => if after_digit then Some acc else None
  | String c s' =>
      match digit_of c with
      | Some d => digits s' (10 * acc + d) true
      | None =>
          if Ascii.eqb c "_" && after_digit then digits s' acc false else None
      end
  end.

(** [int(s)] for a [str] in base ten: surrounding white space, one optional
    sign, digits.  Strings with bytes outside ASCII are rejected here
    (CPython also takes the other Unicode decimal digits and spaces), and
    CPython's configurable cap on the number of digits is left out. *)
Definition int_of_str (s : string) : option Z :=
  match lstrip (rstrip s) with
  | String "-" r => option_map Z.opp (digits r 0 false)
  | String "+" r => digits r 0 false
  | t => digits t 0 false
  end.

(** [int(f)] for a [float]: truncation toward zero. *)
Definition int_of_float (f : float64) : res Z :=
  match f with
  | S754_zero _ => Ret 0
  | S754_nan => Raise ValueError
  | S754_infinity _ => Raise OverflowError
  | S754_finite s m e =>
      let a := match e with
               | Zneg p => Z.shiftr (Zpos m) (Zpos p)
               | _ => Z.shiftl (Zpos m) e
               end in
      Ret (if s then - a else a)
  end.

Definition int (v : value) : res Z :=
  match v with
  | PInt z => Ret z
  | PBool b => Ret (if b then 1 else 0)
  | PFloat f => int_of_float f
  | PStr s =>
      match int_of_str s with
      | Some z => Ret z
      | None => Raise ValueError
      end
  | _ => Raise TypeError
  end.

(* ----------------------------------------------------------------- *)
(** *** [float(...)] and [*] *)

(** [float(z)] for an [int]: nearest double, ties to even; too large an
    [int] raises instead of becoming infinite. *)
Definition float_of_int (z : Z) : res float64 :=
  match binary_normalize prec emax z 0 false with
  | S754_infinity _ => Raise OverflowError
  | f => Ret f
  end.

Definition f64 (m e : Z) : float64 := binary_normalize prec emax m e false.

Definition fzero : float64 := S754_zero false.
Definition fone : float64 := f64 1 0.
Definition feight : float64 := f64 8 0.

Section WithStrToFloat.

(** [float(s)] for a [str] is the interpreter's decimal-to-binary
    conversion; [None] stands for its [ValueError]. *)
Variable float_of_str : string -> option float64.

Definition float (v : value) : res float64 :=
  match v with
  | PFloat f => Ret f
  | PInt z => float_of_int z
  | PBool b => Ret (if b then fone else fzero)
  | PStr s =>
      match float_of_str s with
      | Some f => Ret f
      | None => Raise ValueError
      end
  | _ => Raise TypeError
  end.

End WithStrToFloat.

Fixpoint repeat_str (n : nat) (s : string) : string :=
  match n with
  | O => EmptyString
  | S n' => String.append s (repeat_str n' s)
  end.

Fixpoint repeat_list {A : Type} (n : nat) (l : list A) : list A :=
  match n with
  | O => []
  | S n' => l ++ repeat_list n' l
  end.

(** [v * 8]: arithmetic on numbers, repetition on sequences. *)
Definition mul8 (v : value) : res value :=
  match v with
  | PInt z => Ret (PInt (z * 8))
  | PBool b => Ret (PInt ((if b then 1 else 0) * 8))
  | PFloat f => Ret (PFloat (SFmul prec emax f feight))
  | PStr s => Ret (PStr (repeat_str 8 s))
  | PList l => Ret (PList (repeat_list 8 l))
  | PNone | PDict _ => Raise TypeError
  end.

(** [v * 1e-06], the product [bits_to_megabits] forms: a sequence cannot be
    multiplied by a [float]. *)
Definition micro : float64 :=
  SFdiv prec emax (f64 1 0) (f64 1000000 0).

Definition mul_micro (v : value) : res float64 :=
  match v with
  | PInt z => f <- float_of_int z ;; Ret (SFmul prec emax f micro)
  | PBool b => Ret (SFmul prec emax (if b then fone else fzero) micro)
  | PFloat f => Ret (SFmul prec emax f micro)
  | _ => Raise TypeError
  end.

(** A number every gauge and the log line accept: a [bool], a [float], or
    an [int] within the range of a double. *)
Definition number (v : value) : bool :=
  match v with
  | PBool _ | PFloat _ => true
  | PInt z =>
      match float_of_int z with
      | Ret _ => true
      | Raise _ => false
      end
  | _ => false
  end.

End Py.

(* ================================================================= *)
(** ** The exporter *)

Module Exporter.

Import Py.
Local Open Scope py_scope.

(** The tuple [runTest] returns:
    [(server, jitter, ping, download, upload, status)]. *)
Definition result : Type := (value * value * value * value * value * value)%type.

(** [(0, 0, 0, 0, 0, 0)], returned on every absorbed failure. *)
Definition sentinel : result :=
  (PInt 0, PInt 0, PInt 0, PInt 0, PInt 0, PInt 0).

(** A tuple of numbers. *)
Definition numbers (r : result) : bool :=
  let '(a, b, c, d, e, f) := r in
  number a && number b && number c && number d && number e && number f.

(** What the process takes from its environment: [SPEEDTEST_CACHE_FOR]
    once at import, already through [int]; the other two variables on every
    [runTest]; and the local time zone, as the seconds by which
    [datetime.fromtimestamp(0)] is ahead of 1970-01-01 00:00:00. *)
Record settings : Type := {
  cache_seconds : Z;
  SPEEDTEST_SERVER : option string;
  SPEEDTEST_TIMEOUT : option string;
  utcoffset : Z
}.

(** How [subprocess.check_output(cmd, timeout=timeout)] ends: with the
    captured standard output, with a non-zero exit status, at the timeout,
    or with any other exception -- an [OSError] when the child cannot be
    started, an [OverflowError] for a timeout the platform cannot wait
    for.  Lines 80-85 catch the second and the third ending only. *)
Inductive completed : Type :=
| Output (stdout : string)
| CalledProcessError
| TimeoutExpired
| Uncaught (e : exn).

(** One invocation of the probe: a call of [subprocess.check_output] with
    this command line and timeout, and the child it starts. *)
Inductive event : Type :=
| Spawn (cmd : list string) (timeout : Z).

Definition bytes_to_bits (bytes_per_sec : value) : res value :=
  mul8 bytes_per_sec.

(** [bits_to_megabits] only feeds the log line; the text it renders is not
    kept, whether forming [bits_per_sec * (10**-6)] raises is. *)
Definition bits_to_megabits (bits_per_sec : value) : res unit :=
  _ <- mul_micro bits_per_sec ;; Ret tt.

Definition base_cmd : list string :=
  ["speedtest"; "--format=json-pretty"; "--progress=no";
   "--accept-license"; "--accept-gdpr"].

(** The body of the [try] at lines 91-104 once [data] is decoded, with the
    fall-through to the last [return] of [runTest]. *)
Definition extract (data : value) : res result :=
  err <- contains "error" data ;;
  if (err : bool) then
    (* the f-string of the log line evaluates data["error"] *)
    _ <- getitem data "error" ;;
    Ret sentinel
  else
    ty <- get data "type" ;;
    if is_str "result" ty then
      srv <- getitem data "server" ;;
      id <- getitem srv "id" ;;
      n <- int id ;;
      pg <- getitem data "ping" ;;
      r_jitter <- getitem pg "jitter" ;;
      pg' <- getitem data "ping" ;;
      r_ping <- getitem pg' "latency" ;;
      dl <- getitem data "download" ;;
      dbw <- getitem dl "bandwidth" ;;
      r_download <- bytes_to_bits dbw ;;
      ul <- getitem data "upload" ;;
      ubw <- getitem ul "bandwidth" ;;
      r_upload <- bytes_to_bits ubw ;;
      Ret (PInt n, r_jitter, r_ping, r_download, r_upload, PInt 1)
    else Ret sentinel.

(** [os.environ.get(name, default)] *)
Definition environ_get (var : option string) (default : value) : value :=
  match var with
  | Some s => PStr s
  | None => default
  end.

(** [int(os.environ.get('SPEEDTEST_TIMEOUT', 90))] *)
Definition timeout_setting (cfg : settings) : res Z :=
  int (environ_get (SPEEDTEST_TIMEOUT cfg) (PInt 90)).

(** The argument list: [--server-id=] is added when [SPEEDTEST_SERVER] is
    set and not empty. *)
Definition command (cfg : settings) : list string :=
  let serverID := SPEEDTEST_SERVER cfg in
  match serverID with
  | Some s =>
      if truthy (PStr s)
      then (base_cmd ++ [String.append "--server-id=" s])%list
      else base_cmd
  | None => base_cmd
  end.

Definition microseconds (seconds : Z) : Z := seconds * 1000000.

(** [timedelta(seconds=s)]: the whole days of the duration must not exceed
    999999999 in magnitude. *)
Definition timedelta_ok (seconds : Z) : bool :=
  (-999999999 <=? seconds / 86400) && (seconds / 86400 <=? 999999999).

Definition timedelta (seconds : Z) : res Z :=
  if timedelta_ok seconds then Ret (microseconds seconds)
  else Raise OverflowError.

(** A [datetime] lies between 0001-01-01 00:00:00 and 9999-12-31
    23:59:59.999999.  In microseconds from [datetime.fromtimestamp(0)]:
    1970-01-01 is day 719162 after the first of these days and day
    2932897 before the day after the last. *)
Definition datetime_min (cfg : settings) : Z :=
  - microseconds (719162 * 86400 + utcoffset cfg).

Definition datetime_max (cfg : settings) : Z :=
  microseconds (2932897 * 86400 - utcoffset cfg) - 1.

Definition datetime_ok (cfg : settings) (t : Z) : bool :=
  (datetime_min cfg <=? t) && (t <=? datetime_max cfg).

(** [t + d] on a [datetime] and a [timedelta] *)
Definition datetime_add (cfg : settings) (t d : Z) : res Z :=
  if datetime_ok cfg (t + d) then Ret (t + d) else Raise OverflowError.

(** The right-hand side of line 127,
    [datetime.datetime.now() + datetime.timedelta(seconds=cache_seconds)]. *)
Definition expiry (cfg : settings) (now : Z) : res Z :=
  d <- timedelta (cache_seconds cfg) ;; datetime_add cfg now d.

(** When line 127 has a value: the duration is a [timedelta] and the sum is
    a [datetime]. *)
Definition storable (cfg : settings) (now : Z) : bool :=
  timedelta_ok (cache_seconds cfg)
  && datetime_ok cfg (now + microseconds (cache_seconds cfg)).

(** [except (KeyError, TypeError)]. *)
Definition except_key_type (m : res result) : res result :=
  match m with
  | Raise KeyError | Raise TypeError => Ret sentinel
  | _ => m
  end.

(* ----------------------------------------------------------------- *)
(** *** Process state *)

Inductive gauge : Type :=
| Server | Jitter | Ping | Download | Upload | Up.

(** The six [Gauge] objects; [Gauge.set(v)] stores [float(v)]. *)
Record gauges : Type := {
  server : float64;
  jitter : float64;
  ping : float64;
  download_speed : float64;
  upload_speed : float64;
  up : float64
}.

Definition set_gauge (g : gauge) (f : float64) (m : gauges) : gauges :=
  match g with
  | Server => {| server := f; jitter := jitter m; ping := ping m;
                 download_speed := download_speed m;
                 upload_speed := upload_speed m; up := up m |}
  | Jitter => {| server := server m; jitter := f; ping := ping m;
                 download_speed := download_speed m;
                 upload_speed := upload_speed m; up := up m |}
  | Ping => {| server := server m; jitter := jitter m; ping := f;
               download_speed := download_speed m;
               upload_speed := upload_speed m; up := up m |}
  | Download => {| server := server m; jitter := jitter m; ping := ping m;
                   download_speed := f;
                   upload_speed := upload_speed m; up := up m |}
  | Upload => {| server := server m; jitter := jitter m; ping := ping m;
                 download_speed := download_speed m;
                 upload_speed := f; up := up m |}
  | Up => {| server := server m; jitter := jitter m; ping := ping m;
             download_speed := download_speed m;
             upload_speed := upload_speed m; up := f |}
  end.

(** The module's mutable globals, and the log of the probe invocations
    made so far.  Times are microseconds on the clock [datetime.now()] reads,
    counted from [datetime.fromtimestamp(0)]. *)
Record world : Type := {
  cache_until : Z;
  registry : gauges;
  shutdown_event : bool;
  spawned : list event
}.

Definition zeros : gauges :=
  {| server := fzero; jitter := fzero; ping := fzero;
     download_speed := fzero; upload_speed := fzero; up := fzero |}.

(** The state right after import. *)
Definition boot : world :=
  {| cache_until := 0; registry := zeros;
     shutdown_event := false; spawned := [] |}.

Definition with_registry (m : gauges) (w : world) : world :=
  {| cache_until := cache_until w; registry := m;
     shutdown_event := shutdown_event w; spawned := spawned w |}.

Definition with_cache_until (t : Z) (w : world) : world :=
  {| cache_until := t; registry := registry w;
     shutdown_event := shutdown_event w; spawned := spawned w |}.

Definition with_spawned (l : list event) (w : world) : world :=
  {| cache_until := cache_until w; registry := registry w;
     shutdown_event := shutdown_event w; spawned := l |}.

(** [signal_handler] up to its [sys.exit]: the flag is set and nothing in
    the program clears it. *)
Definition signal_handler (w : world) : world :=
  {| cache_until := cache_until w; registry := registry w;
     shutdown_event := true; spawned := spawned w |}.

Section WithLibraries.

(** The two library conversions from text that the program relies on:
    [json.loads] on the bytes of the child's standard output, which returns
    the document or raises ([ValueError] for text that is not JSON,
    [RecursionError] for a document nested too deep); and [float(s)] on a
    [str], which [Gauge.set] applies to its argument. *)
Variable json_loads : string -> res value.
Variable float_of_str : string -> option float64.

(** [is_json]: its [except (ValueError, TypeError)] lets every other
    exception of [json.loads] through. *)
Definition is_json (myjson : string) : res bool :=
  if String.eqb myjson EmptyString then Ret false
  else match json_loads myjson with
       | Ret _ => Ret true
       | Raise ValueError | Raise TypeError => Ret false
       | Raise e => Raise e
       end.

(** Lines 87-109: from the captured output to the tuple.  Line 87 is
    outside the [try]; the second [json.loads], at line 91, is inside. *)
Definition parse (output : string) : res result :=
  ok <- is_json output ;;
  if negb ok then Ret sentinel
  else except_key_type (data <- json_loads output ;; extract data).

(** [runTest], given the shutdown flag and how the child would end: the
    processes it starts and what it returns or raises. *)
Definition runTest (shutdown : bool) (cfg : settings) (child : completed)
  : list event * res result :=
  if shutdown then ([], Ret sentinel)
  else
    match timeout_setting cfg with
    | Raise e => ([], Raise e)
    | Ret timeout =>
        ([Spawn (command cfg) timeout],
         match child with
         | CalledProcessError => Ret sentinel
         | TimeoutExpired => Ret sentinel
         | Uncaught e => Raise e
         | Output output => parse output
         end)
    end.

(** Statements of [updateResults]: they read and write the globals and
    may raise, leaving what was written so far. *)
Definition M (A : Type) : Type := world -> res A * world.

Definition retM {A : Type} (a : A) : M A := fun w => (Ret a, w).

Definition bindM {A B : Type} (m : M A) (k : A -> M B) : M B :=
  fun w =>
    match m w with
    | (Ret a, w') => k a w'
    | (Raise e, w') => (Raise e, w')
    end.

Definition lift {A : Type} (m : res A) : M A := fun w => (m, w).

Definition read {A : Type} (f : world -> A) : M A := fun w => (Ret (f w), w).

Notation "x <~ m ;; k" := (bindM m (fun x => k))
  (at level 61, m at next level, right associativity).
Notation "m ;>> k" := (bindM m (fun _ => k))
  (at level 61, right associativity).

(** [g.set(v)] *)
Definition gauge_set (g : gauge) (v : value) : M unit :=
  fun w =>
    match float float_of_str v with
    | Ret f => (Ret tt, with_registry (set_gauge g f (registry w)) w)
    | Raise e => (Raise e, w)
    end.

(** The call of [runTest] at line 116. *)
Definition call_runTest (cfg : settings) (child : completed) : M result :=
  fun w =>
    let (started, r) := runTest (shutdown_event w) cfg child in
    (r, with_spawned (spawned w ++ started)%list w).

(** The [logging.info] of lines 124-125: its f-string calls
    [bits_to_megabits] on the download, then on the upload. *)
Definition log_if_up (r : result) : M unit :=
  let '(_, _, _, r_download, r_upload, r_status) := r in
  if truthy r_status
  then lift (bits_to_megabits r_download ;;; bits_to_megabits r_upload)
  else retM tt.

(** [cache_until = now + timedelta(seconds=cache_seconds)]: nothing is
    assigned when the right-hand side raises. *)
Definition store_cache_until (cfg : settings) (now : Z) : M unit :=
  fun w =>
    match expiry cfg now with
    | Ret t => (Ret tt, with_cache_until t w)
    | Raise e => (Raise e, w)
    end.

(** [make_wsgi_app()]: the response is rendered from the registry as it
    stands when the handler returns. *)
Definition make_wsgi_app : M gauges := read registry.

(** [updateResults], one request served alone.  [now1] is what
    [datetime.now()] reads at line 115 and [now2] what it reads at
    line 127. *)
Definition updateResults (cfg : settings) (now1 now2 : Z)
  (child : completed) : M gauges :=
  until <~ read cache_until ;;
  (if now1 >? until then
     r <~ call_runTest cfg child ;;
     let '(r_server, r_jitter, r_ping, r_download, r_upload, r_status) := r in
     gauge_set Server r_server ;>>
     gauge_set Jitter r_jitter ;>>
     gauge_set Ping r_ping ;>>
     gauge_set Download r_download ;>>
     gauge_set Upload r_upload ;>>
     gauge_set Up r_status ;>>
     log_if_up r ;>>
     store_cache_until cfg now2
   else retM tt) ;>>
  make_wsgi_app.

(** Requests served one after the other, each with its two clock
    readings and the end of the child it would start. *)
Record call : Type := {
  now1 : Z;
  now2 : Z;
  child : completed
}.

Fixpoint serve (cfg : settings) (calls : list call) (w : world)
  : list (res gauges) * world :=
  match calls with
  | [] => ([], w)
  | c :: rest =>
      let (resp, w') := updateResults cfg (now1 c) (now2 c) (child c) w in
      let (resps, w'') := serve cfg rest w' in
      (resp :: resps, w'')
  end.

(* --------------------------------------------------------------- *)
(** *** The worker pool

    [serve(..., threads=4)] runs [updateResults] on several threads over
    the same globals, and the source takes no lock.  A thread is at one
    of the lines of [updateResults]; a step runs that line, the whole of
    [runTest] with its wait for the child being the step of line 116.
    Threads interleave between lines. *)

Inductive pc : Type :=
| L115
| L116
| L117 (r : result)
| L118 (r : result)
| L119 (r : result)
| L120 (r : result)
| L121 (r : result)
| L122 (r : result)
| L124 (r : result)
| L127
| L129
| Finished (response : res gauges).

Definition goto {A : Type} (x : res A * world) (next : A -> pc)
  : pc * world :=
  match x with
  | (Ret a, w') => (next a, w')
  | (Raise e, w') => (Finished (Raise e), w')
  end.

(** One line of one thread; [now] is the clock when the line runs. *)
Definition step (cfg : settings) (now : Z) (child : completed)
  (p : pc) (w : world) : pc * world :=
  match p with
  | L115 => (if now >? cache_until w then L116 else L129, w)
  | L116 => goto (call_runTest cfg child w) L117
  | L117 r =>
      let '(r_server, _, _, _, _, _) := r in
      goto (gauge_set Server r_server w) (fun _ => L118 r)
  | L118 r =>
      let '(_, r_jitter, _, _, _, _) := r in
      goto (gauge_set Jitter r_jitter w) (fun _ => L119 r)
  | L119 r =>
      let '(_, _, r_ping, _, _, _) := r in
      goto (gauge_set Ping r_ping w) (fun _ => L120 r)
  | L120 r =>
      let '(_, _, _, r_download, _, _) := r in
      goto (gauge_set Download r_download w) (fun _ => L121 r)
  | L121 r =>
      let '(_, _, _, _, r_upload, _) := r in
      goto (gauge_set Upload r_upload w) (fun _ => L122 r)
  | L122 r =>
      let '(_, _, _, _, _, r_status) := r in
      goto (gauge_set Up r_status w) (fun _ => L124 r)
  | L124 r => goto (log_if_up r w) (fun _ => L127)
  | L127 => goto (store_cache_until cfg now w) (fun _ => L129)
  | L129 => goto (make_wsgi_app w) (fun m => Finished (Ret m))
  | Finished response => (Finished response, w)
  end.

Record thread : Type := {
  at_line : pc;
  child_of : completed
}.

Definition arrive (c : completed) : thread :=
  {| at_line := L115; child_of := c |}.

(** Thread [i] runs its next line at clock [now]. *)
Fixpoint step_thread (cfg : settings) (now : Z) (i : nat)
  (ts : list thread) (w : world) : list thread * world :=
  match ts, i with
  | [], _ => ([], w)
  | t :: ts', O =>
      let (p', w') := step cfg now (child_of t) (at_line t) w in
      ({| at_line := p'; child_of := child_of t |} :: ts', w')
  | t :: ts', S i' =>
      let (ts'', w') := step_thread cfg now i' ts' w in
      (t :: ts'', w')
  end.

(** A schedule names, step by step, the thread that runs and the clock. *)
Fixpoint run (cfg : settings) (schedule : list (nat * Z))
  (ts : list thread) (w : world) : list thread * world :=
  match schedule with
  | [] => (ts, w)
  | (i, now) :: rest =>
      let (ts', w') := step_thread cfg now i ts w in
      run cfg rest ts' w'
  end.

(** One thread running line after line at the given clock readings. *)
Fixpoint thread_run (cfg : settings) (clock : list Z) (child : completed)
  (p : pc) (w : world) : pc * world :=
  match clock with
  | [] => (p, w)
  | now :: rest =>
      let (p', w') := step cfg now child p w in
      thread_run cfg rest child p' w'
  end.

(** The schedule in which thread [i] runs all of [updateResults] with no
    other thread in between. *)
Definition alone (i : nat) (c : call) : list (nat * Z) :=
  (i, now1 c) :: repeat (i, now2 c) 10.

Fixpoint serially (i : nat) (calls : list call) : list (nat * Z) :=
  match calls with
  | [] => []
  | c :: rest => (alone i c ++ serially (S i) rest)%list
  end.

End WithLibraries.

End Exporter.

(* ================================================================= *)
(** ** Start-up *)

Module Startup.

Import Py.

(** How [subprocess.check_output(['speedtest', '--version'], text=True)]
    ends: with the text printed, with a [SubprocessError] (non-zero exit
    status), with a [ValueError] (output that does not decode) or with an
    [OSError] (the file cannot be executed). *)
Inductive version_query : Type :=
| Version (version_output : string)
| VersionSubprocessError
| VersionValueError
| VersionOSError.

(** How [checkForBinary] ends: it returns, it calls [sys.exit], or the
    [OSError] that its [except] clause does not name leaves it. *)
Inductive checked : Type :=
| Verified
| SysExit (status : Z)
| Propagates.

Definition official : string := "Speedtest by Ookla".

(** [checkForBinary]; [speedtest_path] is what [which("speedtest")]
    returns.  The version is only queried when a path was found. *)
Definition checkForBinary (speedtest_path : option string)
  (query : version_query) : checked :=
  match speedtest_path with
  | None => SysExit 1
  | Some path =>
      if negb (truthy (PStr path)) then SysExit 1
      else
        match query with
        | Version version_output =>
            if negb (substringb official version_output)
            then SysExit 1   (* the ValueError raised is caught just below *)
            else Verified
        | VersionSubprocessError => SysExit 1
        | VersionValueError => SysExit 1
        | VersionOSError => Propagates
        end
  end.

(** Where the program ends up: at the call of waitress's [serve] with a
    port, or at the end of the process with an exit status. *)
Inductive started : Type :=
| Serve (port : Z)
| Exited (status : Z).

(** The [try] of the [__main__] block, up to the call of [serve], when no
    signal interrupts it.  [SystemExit] is not an [Exception] and passes
    the handler; everything else ends in [sys.exit(1)]. *)
Definition main (speedtest_path : option string) (query : version_query)
  (SPEEDTEST_PORT : option string) : started :=
  match checkForBinary speedtest_path query with
  | SysExit status => Exited status
  | Propagates => Exited 1
  | Verified =>
      match int (Exporter.environ_get SPEEDTEST_PORT (PInt 9798)) with
      | Ret PORT => Serve PORT
      | Raise _ => Exited 1
      end
  end.

(** Line 35, run when the module is loaded:
    [cache_seconds = int(os.environ.get('SPEEDTEST_CACHE_FOR', 0))]. *)
Definition cache_seconds_setting (SPEEDTEST_CACHE_FOR : option string)
  : res Z :=
  int (Exporter.environ_get SPEEDTEST_CACHE_FOR (PInt 0)).

(** Whether [SIGTERM] or [SIGINT] reaches the process after lines 153-154
    have registered [signal_handler] and before the [try] block has called
    [serve] or [sys.exit].  The handler runs on the main thread wherever
    that is, the wait for the version query included. *)
Inductive signal : Type :=
| NoSignal
| Delivered.

(** The file run as a program, from line 35 to the call of [serve]; the
    other statements at module level (the imports, the gauges, line 36)
    are taken to succeed, and a signal that arrives before lines 153-154
    is left to the interpreter's defaults.  An exception at line 35 is
    outside every [try]: the interpreter prints the traceback and exits
    with status 1.  The [sys.exit(0)] of
    [signal_handler] passes [except (subprocess.SubprocessError,
    ValueError)] and [except Exception] alike. *)
Definition script (SPEEDTEST_CACHE_FOR : option string) (sig : signal)
  (speedtest_path : option string) (query : version_query)
  (SPEEDTEST_PORT : option string) : started :=
  match cache_seconds_setting SPEEDTEST_CACHE_FOR with
  | Raise _ => Exited 1
  | Ret _ =>
      match sig with
      | Delivered => Exited 0
      | NoSignal => main speedtest_path query SPEEDTEST_PORT
      end
  end.

End Startup.

(* ================================================================= *)
(** ** Properties: vocabulary *)

Import Py Exporter.
Local Open Scope py_scope.

(** A decoder that knows one document: it stands for [json.loads] where a
    statement is about a single output text. *)
Definition loads_only (text : string) (data : value) (s : string)
  : res value :=
  if String.eqb s text then Ret data else Raise ValueError.

(** No [str] reaches a gauge in the examples. *)
Definition no_float_of_str (_ : string) : option float64 := None.

(** The clock moves on: every request checks the cache strictly after the
    previous reading and stores no earlier than it checked. *)
Fixpoint advancing (prev : Z) (calls : list call) : Prop :=
  match calls with
  | [] => True
  | c :: rest =>
      prev < now1 c /\ now1 c <= now2 c /\ advancing (now2 c) rest
  end.

Fixpoint set_nth {A : Type} (i : nat) (x : A) (l : list A) : list A :=
  match l, i with
  | [], _ => []
  | _ :: l', O => x :: l'
  | y :: l', S i' => y :: set_nth i' x l'
  end.




(** The threads of a pool in which every request was answered. *)
Definition answered (calls : list call) (resps : list (res gauges))
  : list thread :=
  map (fun cr => {| at_line := Finished (snd cr); child_of := child (fst cr) |})
      (combine calls resps).

(* ----------------------------------------------------------------- *)
(** *** Scenarios *)

(** JSON text, written without typing the quote character. *)
Definition quote : string := String (ascii_of_nat 34) EmptyString.
Definition quoted (s : string) : string :=
  String.append quote (String.append s quote).
Definition key (k : string) : string := String.append (quoted k) ":".
Definition text (parts : list string) : string := String.concat EmptyString parts.

(** The double nearest to [m / 10^k], for [m] and [10^k] below [2^53]. *)
Definition decimal (m : Z) (k : nat) : float64 :=
  SFdiv prec emax (f64 m 0) (f64 (10 ^ Z.of_nat k) 0).

(** The result document of the specification's end-to-end scenario. *)
Definition payload_text : string :=
  text ["{"; key "type"; quoted "result"; ",";
        key "server"; "{"; key "id"; "12345},";
        key "ping"; "{"; key "jitter"; "1.5,"; key "latency"; "10.2},";
        key "download"; "{"; key "bandwidth"; "12500000},";
        key "upload"; "{"; key "bandwidth"; "1250000}}"].

Definition payload : value :=
  PDict [("type", PStr "result");
         ("server", PDict [("id", PInt 12345)]);
         ("ping", PDict [("jitter", PFloat (decimal 15 1));
                         ("latency", PFloat (decimal 102 1))]);
         ("download", PDict [("bandwidth", PInt 12500000)]);
         ("upload", PDict [("bandwidth", PInt 1250000)])].

(** The same document with a server id that is not a number. *)
Definition bad_id_text : string :=
  text ["{"; key "type"; quoted "result"; ",";
        key "server"; "{"; key "id"; quoted "abc"; "},";
        key "ping"; "{"; key "jitter"; "1.5,"; key "latency"; "10.2},";
        key "download"; "{"; key "bandwidth"; "12500000},";
        key "upload"; "{"; key "bandwidth"; "1250000}}"].

Definition bad_id_payload : value :=
  PDict [("type", PStr "result");
         ("server", PDict [("id", PStr "abc")]);
         ("ping", PDict [("jitter", PFloat (decimal 15 1));
                         ("latency", PFloat (decimal 102 1))]);
         ("download", PDict [("bandwidth", PInt 12500000)]);
         ("upload", PDict [("bandwidth", PInt 1250000)])].

(** The scenario's document with the download bandwidth as a string. *)
Definition text_bandwidth_text : string :=
  text ["{"; key "type"; quoted "result"; ",";
        key "server"; "{"; key "id"; "12345},";
        key "ping"; "{"; key "jitter"; "1.5,"; key "latency"; "10.2},";
        key "download"; "{"; key "bandwidth"; quoted "5"; "},";
        key "upload"; "{"; key "bandwidth"; "1250000}}"].

Definition text_bandwidth_payload : value :=
  PDict [("type", PStr "result");
         ("server", PDict [("id", PInt 12345)]);
         ("ping", PDict [("jitter", PFloat (decimal 15 1));
                         ("latency", PFloat (decimal 102 1))]);
         ("download", PDict [("bandwidth", PStr "5")]);
         ("upload", PDict [("bandwidth", PInt 1250000)])].

Definition text_bandwidth_loads : string -> res value :=
  loads_only text_bandwidth_text text_bandwidth_payload.




Definition cfg60 : settings :=
  {| cache_seconds := 60; SPEEDTEST_SERVER := None; SPEEDTEST_TIMEOUT := None;
     utcoffset := 0 |}.

Definition cfg0 : settings :=
  {| cache_seconds := 0; SPEEDTEST_SERVER := None; SPEEDTEST_TIMEOUT := None;
     utcoffset := 0 |}.

(** [SPEEDTEST_CACHE_FOR=1000000000000]: a duration [timedelta] takes, but
    which carries every date of the clock past the year 9999. *)
Definition far_cache : settings :=
  {| cache_seconds := 1000000000000; SPEEDTEST_SERVER := None;
     SPEEDTEST_TIMEOUT := None; utcoffset := 0 |}.

(** The gauges after the scenario's measurement. *)
Definition measured : gauges :=
  {| server := f64 12345 0;
     jitter := decimal 15 1;
     ping := decimal 102 1;
     download_speed := f64 100000000 0;
     upload_speed := f64 10000000 0;
     up := fone |}.

(** The process 120 s after start, a first request served at 100 s having
    measured the scenario's result under [cfg60]. *)
Definition warm : world :=
  {| cache_until := microseconds 180;
     registry := measured;
     shutdown_event := false;
     spawned := [Spawn base_cmd 90] |}.

Definition scenario_loads : string -> res value :=
  loads_only payload_text payload.

Definition bad_id_loads : string -> res value :=
  loads_only bad_id_text bad_id_payload.

(** Two worker threads take a request each while the cache is stale: the
    first child would print the scenario's result, the second would time
    out.  Both pass line 115 before either reaches line 127. *)
Definition overlapping : list (nat * Z) :=
  ((0%nat, microseconds 100) :: (1%nat, microseconds 101)
   :: repeat (0%nat, microseconds 120) 10
   ++ repeat (1%nat, microseconds 125) 10)%list.

(* ----------------------------------------------------------------- *)
(** *** Lists *)

Lemma set_nth_same {A : Type} (l : list A) : forall i x,
  nth_error l i = Some x -> set_nth i x l = l.
Proof.
induction l as [|y l IH]; intros [|i] x H; cbn in *; try congruence.
f_equal. apply IH, H.
Qed.

Lemma set_nth_twice {A : Type} (l : list A) : forall i x y,
  set_nth i y (set_nth i x l) = set_nth i y l.
Proof.
induction l as [|z l IH]; intros [|i] x y; cbn; try reflexivity.
f_equal. apply IH.
Qed.

Lemma nth_error_set_nth {A : Type} (l : list A) : forall i x y,
  nth_error l i = Some y -> nth_error (set_nth i x l) i = Some x.
Proof.
induction l as [|z l IH]; intros [|i] x y H; cbn in *; try congruence.
apply (IH i x y H).
Qed.

Lemma set_nth_middle {A : Type} (done : list A) x y rest :
  set_nth (List.length done) x (done ++ y :: rest) = (done ++ x :: rest)%list.
Proof.
induction done as [|z done IH]; cbn; [reflexivity|]. f_equal. exact IH.
Qed.

Lemma nth_error_middle {A : Type} (done : list A) y rest :
  nth_error (done ++ y :: rest) (List.length done) = Some y.
Proof.
induction done as [|z done IH]; cbn; [reflexivity|exact IH].
Qed.

(** *** Line 127 *)

Lemma expiry_cases cfg now :
  expiry cfg now =
    if storable cfg now then Ret (now + microseconds (cache_seconds cfg))
    else Raise OverflowError.
Proof.
unfold expiry, storable, timedelta, datetime_add.
destruct (timedelta_ok (cache_seconds cfg)); cbn [bind andb]; reflexivity.
Qed.

Lemma expiry_value cfg now t :
  expiry cfg now = Ret t -> t = now + microseconds (cache_seconds cfg).
Proof.
rewrite expiry_cases. destruct (storable cfg now); [|discriminate].
intros H. injection H as <-. reflexivity.
Qed.

Lemma expiry_raises cfg now e :
  expiry cfg now = Raise e -> e = OverflowError.
Proof.
rewrite expiry_cases. destruct (storable cfg now); [discriminate|].
intros H. injection H as <-. reflexivity.
Qed.

(** *** The conversions *)

Lemma mul_two_to_52 m :
  (m * 4503599627370496)%positive = Pos.iter xO m 52.
Proof.
change 4503599627370496%positive with (Pos.iter xO 1%positive 52).
cbn [Pos.iter]. repeat rewrite Pos.mul_xO_r. rewrite Pos.mul_1_r.
reflexivity.
Qed.

(** The IEEE product of a normal double by 8.0 keeps the mantissa. *)
Lemma bytes_to_bits_normal s m e :
  digits2_pos m = 53%positive ->
  -1074 <= e ->
  e <= 968 ->
  bytes_to_bits (PFloat (S754_finite s m e))
  = Ret (PFloat (S754_finite s m (e + 3))).
Proof.
intros Hd Hlo Hhi. unfold bytes_to_bits, mul8. do 2 f_equal.
change feight with (S754_finite false 4503599627370496 (-49)).
cbn [SFmul]. rewrite mul_two_to_52. cbn [Pos.iter].
unfold binary_round_aux, shr_fexp.
cbn [Zdigits2 digits2_pos]. rewrite Hd. cbn [Pos.succ].
replace (fexp prec emax (105 + (e + -49)) - (e + -49)) with 52
  by (unfold fexp, emin, prec, emax; lia).
cbn [shr shr_record_of_loc iter_pos shr_1 Z.add].
cbn [shr_m loc_of_shr_record round_nearest_even Zdigits2 orb]. rewrite Hd.
replace (fexp prec emax (53 + (e + -49 + 52)) - (e + -49 + 52)) with 0
  by (unfold fexp, emin, prec, emax; lia).
cbn [shr shr_m shr_record_of_loc].
replace (e + -49 + 52 <=? emax - prec) with true
  by (symmetry; apply Z.leb_le; unfold emax, prec; lia).
replace (e + -49 + 52) with (e + 3) by lia.
destruct s; reflexivity.
Qed.




(** *** [extract]: the decoded document *)

Lemma extract_error_key d v :
  lookup "error" d = Some v ->
  except_key_type (extract (PDict d)) = Ret sentinel.
Proof.
intros He. unfold extract. cbn [contains getitem bind]. rewrite He.
reflexivity.
Qed.

Lemma extract_not_result d :
  lookup "error" d = None ->
  lookup "type" d <> Some (PStr "result") ->
  extract (PDict d) = Ret sentinel.
Proof.
intros He Hty. unfold extract. cbn [contains get bind]. rewrite He.
destruct (lookup "type" d) as [ty|]; cbn [bind]; [|reflexivity].
destruct ty; cbn [is_str]; try reflexivity.
destruct (String.eqb s "result") eqn:E; [|reflexivity].
apply String.eqb_eq in E. subst s. contradiction Hty. reflexivity.
Qed.

(** A result document from which a field is missing: the [KeyError] is
    absorbed. *)
Lemma extract_missing_server d :
  lookup "error" d = None ->
  lookup "type" d = Some (PStr "result") ->
  lookup "server" d = None ->
  except_key_type (extract (PDict d)) = Ret sentinel.
Proof.
intros He Hty Hs. unfold extract.
cbn [contains get getitem bind]. rewrite He, Hty. cbn [bind is_str].
rewrite Hs. reflexivity.
Qed.

(** The fields of a result document, in the order lines 98-102 read them. *)
Lemma extract_result d srv pg dl ul idv j l dbv ubv :
  lookup "error" d = None ->
  lookup "type" d = Some (PStr "result") ->
  lookup "server" d = Some (PDict srv) -> lookup "id" srv = Some idv ->
  lookup "ping" d = Some (PDict pg) ->
  lookup "jitter" pg = Some j -> lookup "latency" pg = Some l ->
  lookup "download" d = Some (PDict dl) -> lookup "bandwidth" dl = Some dbv ->
  lookup "upload" d = Some (PDict ul) -> lookup "bandwidth" ul = Some ubv ->
  extract (PDict d) =
    (n <- int idv ;;
     r_download <- bytes_to_bits dbv ;;
     r_upload <- bytes_to_bits ubv ;;
     Ret (PInt n, j, l, r_download, r_upload, PInt 1)).
Proof.
intros He Hty Hsrv Hid Hpg Hj Hl Hdl Hdb Hul Hub. unfold extract.
cbn [contains get getitem bind]. rewrite He, Hty. cbn [bind is_str].
rewrite Hsrv. cbn [bind getitem]. rewrite Hid. cbn [bind].
destruct (int idv) as [n|e]; cbn [bind]; [|reflexivity].
rewrite Hpg. cbn [bind getitem]. rewrite Hj. cbn [bind getitem].
rewrite Hl. cbn [bind].
rewrite Hdl. cbn [bind getitem]. rewrite Hdb. cbn [bind].
destruct (bytes_to_bits dbv) as [rd|e]; cbn [bind]; [|reflexivity].
rewrite Hul. cbn [bind getitem]. rewrite Hub. cbn [bind]. reflexivity.
Qed.

Section Facts.

Variable json_loads : string -> res value.
Variable float_of_str : string -> option float64.

Local Abbreviation parse := (parse json_loads).
Local Abbreviation runTest := (runTest json_loads).
Local Abbreviation updateResults := (updateResults json_loads float_of_str).
Local Abbreviation serve := (serve json_loads float_of_str).
Local Abbreviation step := (step json_loads float_of_str).
Local Abbreviation run := (run json_loads float_of_str).
Local Abbreviation step_thread := (step_thread json_loads float_of_str).
Local Abbreviation thread_run := (thread_run json_loads float_of_str).

(** *** The staleness test and the fresh path *)

Lemma fresh_read cfg t1 t2 c w :
  t1 <= cache_until w ->
  updateResults cfg t1 t2 c w = (Ret (registry w), w).
Proof.
intros Hfresh.
unfold Exporter.updateResults, bindM, read.
rewrite Z.gtb_ltb.
replace (cache_until w <? t1) with false by (symmetry; apply Z.ltb_ge; lia).
reflexivity.
Qed.

Lemma gtb_stale t u : t > u -> (t >? u) = true.
Proof. intros H. rewrite Z.gtb_ltb. apply Z.ltb_lt. lia. Qed.

(** What a stale read does, statement by statement. *)
Lemma stale_read cfg t1 t2 c w :
  t1 > cache_until w ->
  updateResults cfg t1 t2 c w =
  bindM
    (bindM (call_runTest json_loads cfg c) (fun r =>
     let '(r_server, r_jitter, r_ping, r_download, r_upload, r_status) := r in
     bindM (gauge_set float_of_str Server r_server) (fun _ =>
     bindM (gauge_set float_of_str Jitter r_jitter) (fun _ =>
     bindM (gauge_set float_of_str Ping r_ping) (fun _ =>
     bindM (gauge_set float_of_str Download r_download) (fun _ =>
     bindM (gauge_set float_of_str Upload r_upload) (fun _ =>
     bindM (gauge_set float_of_str Up r_status) (fun _ =>
     bindM (log_if_up r) (fun _ =>
     store_cache_until cfg t2)))))))))
    (fun _ => make_wsgi_app) w.
Proof.
intros Hstale.
unfold Exporter.updateResults at 1, bindM at 1, read at 1.
rewrite (gtb_stale _ _ Hstale). reflexivity.
Qed.

(** Case analysis on every [float(...)] and log line a stale read meets. *)
Ltac each_statement :=
  repeat match goal with
    | |- context [float ?f ?v] => destruct (float f v); cbn [fst snd]
    | |- context [bits_to_megabits ?v] =>
        destruct (bits_to_megabits v); cbn [fst snd bind]
    | |- context [truthy ?v] => destruct (truthy v); cbn [fst snd]
    | |- context [expiry ?c ?t] =>
        let E := fresh "Hexpiry" in
        destruct (expiry c t) eqn:E; cbn [fst snd]
    end.

Ltac open_stale_read H :=
  rewrite (stale_read _ _ _ _ _ H);
  unfold bindM, call_runTest, gauge_set, log_if_up, store_cache_until,
    make_wsgi_app, read, lift, retM.

(** A stale read starts exactly the processes [runTest] starts, and never
    touches the shutdown flag. *)
Lemma stale_read_spawned cfg t1 t2 c w :
  t1 > cache_until w ->
  spawned (snd (updateResults cfg t1 t2 c w)) =
    (spawned w ++ fst (runTest (shutdown_event w) cfg c))%list
  /\ shutdown_event (snd (updateResults cfg t1 t2 c w)) = shutdown_event w.
Proof.
intros Hstale. open_stale_read Hstale.
destruct (runTest (shutdown_event w) cfg c) as [evs [r|e]]; cbn [fst snd].
- destruct r as [[[[[a b] d] f] g] h]. each_statement; split; reflexivity.
- split; reflexivity.
Qed.

(** A stale read whose measurement is the sentinel zeroes the six gauges;
    then it stores the expiry computed from the second clock reading, or
    raises at line 127 when that expiry is no [datetime]. *)
Lemma stale_read_sentinel cfg t1 t2 c w evs :
  t1 > cache_until w ->
  runTest (shutdown_event w) cfg c = (evs, Ret sentinel) ->
  updateResults cfg t1 t2 c w =
    if storable cfg t2 then
      (Ret zeros,
       {| cache_until := t2 + microseconds (cache_seconds cfg);
          registry := zeros;
          shutdown_event := shutdown_event w;
          spawned := (spawned w ++ evs)%list |})
    else
      (Raise OverflowError,
       {| cache_until := cache_until w;
          registry := zeros;
          shutdown_event := shutdown_event w;
          spawned := (spawned w ++ evs)%list |}).
Proof.
intros Hstale Hrun. open_stale_read Hstale.
rewrite Hrun, expiry_cases. destruct (storable cfg t2); reflexivity.
Qed.

(** *** [runTest]: the paths that end in the sentinel *)

Lemma runTest_shutdown cfg c : runTest true cfg c = ([], Ret sentinel).
Proof. reflexivity. Qed.

Lemma runTest_started cfg c t :
  timeout_setting cfg = Ret t ->
  fst (runTest false cfg c) = [Spawn (command cfg) t].
Proof. intros Ht. unfold Exporter.runTest. rewrite Ht. reflexivity. Qed.

Lemma runTest_timeout_expired cfg t :
  timeout_setting cfg = Ret t ->
  runTest false cfg TimeoutExpired = ([Spawn (command cfg) t], Ret sentinel).
Proof. intros Ht. unfold Exporter.runTest. rewrite Ht. reflexivity. Qed.

Lemma runTest_called_process_error cfg t :
  timeout_setting cfg = Ret t ->
  runTest false cfg CalledProcessError
  = ([Spawn (command cfg) t], Ret sentinel).
Proof. intros Ht. unfold Exporter.runTest. rewrite Ht. reflexivity. Qed.

Lemma runTest_output cfg t output :
  timeout_setting cfg = Ret t ->
  runTest false cfg (Output output)
  = ([Spawn (command cfg) t], parse output).
Proof. intros Ht. unfold Exporter.runTest. rewrite Ht. reflexivity. Qed.

(** A stale read whose child timed out or failed, with the flag clear:
    six zeros are published and the expiry, when it is a [datetime], is
    stored. *)
Lemma stale_read_child_failed cfg t t1 t2 c w :
  shutdown_event w = false ->
  timeout_setting cfg = Ret t ->
  c = TimeoutExpired \/ c = CalledProcessError ->
  t1 > cache_until w ->
  storable cfg t2 = true ->
  updateResults cfg t1 t2 c w =
    (Ret zeros,
     {| cache_until := t2 + microseconds (cache_seconds cfg);
        registry := zeros;
        shutdown_event := false;
        spawned := (spawned w ++ [Spawn (command cfg) t])%list |}).
Proof.
intros Hup Ht Hc Hstale Hst.
rewrite (stale_read_sentinel cfg t1 t2 c w [Spawn (command cfg) t] Hstale).
- rewrite Hst, Hup. reflexivity.
- rewrite Hup. destruct Hc as [-> | ->].
  + apply runTest_timeout_expired, Ht.
  + apply runTest_called_process_error, Ht.
Qed.

(** *** Requests served in sequence *)

Lemma serve_cons cfg c rest w :
  serve cfg (c :: rest) w =
  (fst (updateResults cfg (now1 c) (now2 c) (child c) w)
     :: fst (serve cfg rest
               (snd (updateResults cfg (now1 c) (now2 c) (child c) w))),
   snd (serve cfg rest
          (snd (updateResults cfg (now1 c) (now2 c) (child c) w)))).
Proof.
cbn [Exporter.serve].
destruct (updateResults cfg (now1 c) (now2 c) (child c) w) as [resp w'].
cbn [fst snd]. destruct (serve cfg rest w'); reflexivity.
Qed.

(** Nothing in [updateResults] writes the shutdown flag. *)
Lemma updateResults_shutdown_event cfg t1 t2 c w :
  shutdown_event (snd (updateResults cfg t1 t2 c w)) = shutdown_event w.
Proof.
destruct (Z_le_gt_dec t1 (cache_until w)) as [Hfresh|Hstale].
- rewrite fresh_read by exact Hfresh. reflexivity.
- apply stale_read_spawned, Hstale.
Qed.

(** Once the flag is set a request starts no process. *)
Lemma updateResults_after_shutdown cfg t1 t2 c w :
  shutdown_event w = true ->
  spawned (snd (updateResults cfg t1 t2 c w)) = spawned w.
Proof.
intros Hdown.
destruct (Z_le_gt_dec t1 (cache_until w)) as [Hfresh|Hstale].
- rewrite fresh_read by exact Hfresh. reflexivity.
- destruct (stale_read_spawned cfg t1 t2 c w Hstale) as [Hsp _].
  rewrite Hsp, Hdown, runTest_shutdown. apply app_nil_r.
Qed.

(** C4 (as amended).  A read is fresh when the clock is at or before
    [cache_until] -- at exactly [cache_until] nothing is measured and
    nothing changes -- and a measurement is triggered exactly when the
    clock is strictly after [cache_until]. *)
Theorem stale_iff_after_cache_until cfg t1 t2 c w t :
  shutdown_event w = false ->
  timeout_setting cfg = Ret t ->
  (t1 <= cache_until w ->
   updateResults cfg t1 t2 c w = (Ret (registry w), w))
  /\ (t1 > cache_until w <->
      spawned (snd (updateResults cfg t1 t2 c w))
      = (spawned w ++ [Spawn (command cfg) t])%list).
Proof.
intros Hup Ht. split; [apply fresh_read|]. split.
- intros Hstale.
  destruct (stale_read_spawned cfg t1 t2 c w Hstale) as [Hsp _].
  rewrite Hsp, Hup. f_equal. apply runTest_started, Ht.
- intros Hsp.
  destruct (Z_le_gt_dec t1 (cache_until w)) as [Hfresh|Hstale]; [|exact Hstale].
  rewrite fresh_read in Hsp by exact Hfresh. cbn [snd] in Hsp.
  apply (f_equal (@List.length event)) in Hsp.
  rewrite List.length_app in Hsp. cbn [List.length] in Hsp. lia.
Qed.

Lemma serve_fresh cfg calls w :
  Forall (fun c => now1 c <= cache_until w) calls ->
  serve cfg calls w = (map (fun _ => Ret (registry w)) calls, w).
Proof.
induction 1 as [|c rest Hc _ IH].
- reflexivity.
- rewrite serve_cons, (fresh_read _ _ _ _ _ Hc). cbn [fst snd].
  rewrite IH. reflexivity.
Qed.

Lemma serve_length cfg : forall calls w,
  List.length (fst (serve cfg calls w)) = List.length calls.
Proof.
induction calls as [|c rest IH]; intros w; [reflexivity|].
rewrite serve_cons. cbn [fst List.length]. f_equal. apply IH.
Qed.

(** A stale read that completes stores the expiry from the reading of
    line 127. *)
Lemma stale_read_expiry cfg t1 t2 c w m :
  t1 > cache_until w ->
  fst (updateResults cfg t1 t2 c w) = Ret m ->
  cache_until (snd (updateResults cfg t1 t2 c w))
  = t2 + microseconds (cache_seconds cfg).
Proof.
intros Hstale. open_stale_read Hstale.
destruct (runTest (shutdown_event w) cfg c) as [evs [r|e]]; cbn [fst snd].
- destruct r as [[[[[a b] d] f] g] h].
  each_statement; intros Hm;
    solve [discriminate Hm | eapply expiry_value; eassumption].
- intros Hm. discriminate Hm.
Qed.

(** C7.  Requests that all arrive at or before [cache_until] each return
    the registry as it stands, start no process and leave the expiry, the
    six gauges and the rest of the state as they were. *)
Theorem fresh_reads_idempotent cfg calls w :
  Forall (fun c => now1 c <= cache_until w) calls ->
  serve cfg calls w = (map (fun _ => Ret (registry w)) calls, w)
  /\ spawned (snd (serve cfg calls w)) = spawned w
  /\ cache_until (snd (serve cfg calls w)) = cache_until w
  /\ registry (snd (serve cfg calls w)) = registry w.
Proof.
intros Hfresh. rewrite (serve_fresh cfg calls w Hfresh). repeat split.
Qed.

(** *** Results made of numbers are always published *)

Lemma number_float v :
  number v = true -> exists f, float float_of_str v = Ret f.
Proof.
destruct v; cbn [number float]; try discriminate; eauto.
destruct (float_of_int z); [eauto|discriminate].
Qed.

Lemma number_mul_micro v :
  number v = true -> exists f, mul_micro v = Ret f.
Proof.
destruct v; cbn [number mul_micro]; try discriminate; eauto.
destruct (float_of_int z); [cbn [bind]; eauto|discriminate].
Qed.

Lemma stale_read_numbers cfg t1 t2 c w evs r :
  t1 > cache_until w ->
  runTest (shutdown_event w) cfg c = (evs, Ret r) ->
  numbers r = true ->
  storable cfg t2 = true ->
  exists m, fst (updateResults cfg t1 t2 c w) = Ret m.
Proof.
intros Hstale Hrun Hnum Hst. open_stale_read Hstale. rewrite Hrun.
rewrite expiry_cases, Hst.
destruct r as [[[[[a b] d] f] g] h]. cbn [numbers] in Hnum.
repeat (apply andb_prop in Hnum; destruct Hnum as [Hnum ?]).
destruct (number_float a) as [fa Ha]; [assumption|].
destruct (number_float b) as [fb Hb]; [assumption|].
destruct (number_float d) as [fd Hd]; [assumption|].
destruct (number_float f) as [ff Hf]; [assumption|].
destruct (number_float g) as [fg Hg]; [assumption|].
destruct (number_float h) as [fh Hh]; [assumption|].
destruct (number_mul_micro f) as [mf Hmf]; [assumption|].
destruct (number_mul_micro g) as [mg Hmg]; [assumption|].
rewrite Ha, Hb, Hd, Hf, Hg, Hh. unfold bits_to_megabits.
rewrite Hmf, Hmg. cbn [bind].
destruct (truthy h); cbn [fst snd]; eauto.
Qed.

(** C8 (as amended).  On a stale read that completes, the expiry stored is
    the clock reading taken at line 127, after the measurement was run and
    published, plus the cache duration.  A stale read whose measurement is
    the failed sentinel zeroes the gauges; it completes with that expiry
    when the expiry is a [datetime], and otherwise raises [OverflowError] at
    line 127 and keeps the old expiry.  A stale read whose measurement is a
    tuple of numbers completes likewise when the expiry is a [datetime]. *)
Theorem stale_read_stores_expiry_from_second_reading cfg t1 t2 c w :
  t1 > cache_until w ->
  (forall m, fst (updateResults cfg t1 t2 c w) = Ret m ->
     cache_until (snd (updateResults cfg t1 t2 c w))
     = t2 + microseconds (cache_seconds cfg))
  /\ (snd (runTest (shutdown_event w) cfg c) = Ret sentinel ->
      registry (snd (updateResults cfg t1 t2 c w)) = zeros
      /\ (storable cfg t2 = true ->
          fst (updateResults cfg t1 t2 c w) = Ret zeros
          /\ cache_until (snd (updateResults cfg t1 t2 c w))
             = t2 + microseconds (cache_seconds cfg))
      /\ (storable cfg t2 = false ->
          fst (updateResults cfg t1 t2 c w) = Raise OverflowError
          /\ cache_until (snd (updateResults cfg t1 t2 c w))
             = cache_until w))
  /\ (forall r,
        snd (runTest (shutdown_event w) cfg c) = Ret r ->
        numbers r = true ->
        storable cfg t2 = true ->
        (exists m, fst (updateResults cfg t1 t2 c w) = Ret m)
        /\ cache_until (snd (updateResults cfg t1 t2 c w))
           = t2 + microseconds (cache_seconds cfg)).
Proof.
intros Hstale. split; [|split].
- intros m Hm. apply (stale_read_expiry cfg t1 t2 c w m Hstale Hm).
- intros Hrun.
  destruct (runTest (shutdown_event w) cfg c) as [evs r] eqn:E.
  cbn [snd] in Hrun. subst r.
  rewrite (stale_read_sentinel cfg t1 t2 c w evs Hstale E).
  destruct (storable cfg t2); repeat split; discriminate.
- intros r Hrun Hnum Hst.
  destruct (runTest (shutdown_event w) cfg c) as [evs r'] eqn:E.
  cbn [snd] in Hrun. subst r'.
  destruct (stale_read_numbers cfg t1 t2 c w evs r Hstale E Hnum Hst)
    as [m Hm].
  split; [exists m; exact Hm|].
  apply (stale_read_expiry cfg t1 t2 c w m Hstale Hm).
Qed.

(** C9.  With the shutdown flag set, [runTest] returns the sentinel at
    once -- before it reads a setting or starts a process -- and however
    many requests follow, none starts a process and the flag stays set. *)
Theorem shutdown_short_circuit cfg c calls w :
  shutdown_event w = true ->
  runTest (shutdown_event w) cfg c = ([], Ret sentinel)
  /\ spawned (snd (serve cfg calls w)) = spawned w
  /\ shutdown_event (snd (serve cfg calls w)) = true.
Proof.
intros Hdown. split; [rewrite Hdown; reflexivity|].
revert w Hdown. induction calls as [|k rest IH]; intros w Hdown.
- split; [reflexivity|exact Hdown].
- rewrite serve_cons. cbn [snd].
  pose proof (updateResults_shutdown_event cfg (now1 k) (now2 k) (child k) w) as Hflag.
  pose proof (updateResults_after_shutdown cfg (now1 k) (now2 k) (child k) w Hdown) as Hsp.
  rewrite Hdown in Hflag.
  destruct (IH _ Hflag) as [IH1 IH2]. split; [congruence|exact IH2].
Qed.

(** C10 (as amended).  A stale read with the shutdown flag set publishes
    the sentinel to all six gauges (zeros, [up] at 0) and starts no
    process.  When the clock reading of line 127 plus the cache duration
    is a [datetime], that sum is stored as the new expiry and the zeros
    are returned; when it is not, line 127 raises [OverflowError] and the
    old expiry is kept.  Response, gauges and expiry are in both cases
    those a timed-out measurement leaves. *)
Theorem shutdown_sentinel_is_cached cfg t1 t2 c w :
  shutdown_event w = true ->
  t1 > cache_until w ->
  updateResults cfg t1 t2 c w =
    (if storable cfg t2 then
       (Ret zeros,
        {| cache_until := t2 + microseconds (cache_seconds cfg);
           registry := zeros;
           shutdown_event := true;
           spawned := spawned w |})
     else
       (Raise OverflowError,
        {| cache_until := cache_until w;
           registry := zeros;
           shutdown_event := true;
           spawned := spawned w |}))
  /\ (forall w0 t,
        shutdown_event w0 = false ->
        timeout_setting cfg = Ret t ->
        cache_until w0 = cache_until w ->
        fst (updateResults cfg t1 t2 TimeoutExpired w0)
        = fst (updateResults cfg t1 t2 c w)
        /\ registry (snd (updateResults cfg t1 t2 TimeoutExpired w0))
           = registry (snd (updateResults cfg t1 t2 c w))
        /\ cache_until (snd (updateResults cfg t1 t2 TimeoutExpired w0))
           = cache_until (snd (updateResults cfg t1 t2 c w))).
Proof.
intros Hdown Hstale.
assert (Hrun : runTest (shutdown_event w) cfg c = ([], Ret sentinel))
  by (rewrite Hdown; reflexivity).
rewrite (stale_read_sentinel cfg t1 t2 c w [] Hstale Hrun).
rewrite Hdown, app_nil_r. split; [reflexivity|].
intros w0 t Hup Ht Hsame.
assert (Hstale0 : t1 > cache_until w0) by (rewrite Hsame; exact Hstale).
assert (Hrun0 : runTest (shutdown_event w0) cfg TimeoutExpired
                = ([Spawn (command cfg) t], Ret sentinel))
  by (rewrite Hup; apply runTest_timeout_expired, Ht).
rewrite (stale_read_sentinel cfg t1 t2 _ w0 _ Hstale0 Hrun0).
destruct (storable cfg t2); cbn [fst snd registry cache_until];
  repeat split; exact Hsame.
Qed.

(** *** [parse] *)

Lemma parse_malformed output :
  is_json json_loads output = Ret false -> parse output = Ret sentinel.
Proof. intros H. unfold Exporter.parse. rewrite H. reflexivity. Qed.

Lemma parse_decoded output data :
  output <> EmptyString ->
  json_loads output = Ret data ->
  parse output = except_key_type (extract data).
Proof.
intros Hne Hd. unfold Exporter.parse, is_json.
destruct (String.eqb output EmptyString) eqn:E.
- apply String.eqb_eq in E. contradiction.
- rewrite Hd. reflexivity.
Qed.

Lemma stale_read_cache_until cfg t1 t2 c w :
  t1 > cache_until w ->
  cache_until (snd (updateResults cfg t1 t2 c w)) = cache_until w
  \/ cache_until (snd (updateResults cfg t1 t2 c w))
     = t2 + microseconds (cache_seconds cfg).
Proof.
intros Hstale. open_stale_read Hstale.
destruct (runTest (shutdown_event w) cfg c) as [evs [r|e]]; cbn [fst snd].
- destruct r as [[[[[a b] d] f] g] h].
  each_statement;
    first [left; reflexivity | right; eapply expiry_value; eassumption].
- auto.
Qed.

Lemma serve_probes_every_read cfg t :
  cache_seconds cfg = 0 ->
  timeout_setting cfg = Ret t ->
  forall calls w prev,
  shutdown_event w = false ->
  cache_until w <= prev ->
  advancing prev calls ->
  spawned (snd (serve cfg calls w))
  = (spawned w ++ repeat (Spawn (command cfg) t) (List.length calls))%list.
Proof.
intros Hzero Ht. induction calls as [|k rest IH]; intros w prev Hup Hle Hadv.
- cbn. symmetry. apply app_nil_r.
- destruct Hadv as (H1 & H2 & Hrest).
  assert (Hstale : now1 k > cache_until w) by lia.
  rewrite serve_cons. cbn [snd].
  destruct (stale_read_spawned cfg (now1 k) (now2 k) (child k) w Hstale)
    as [Hsp Hflag].
  rewrite (IH _ (now2 k)); [| congruence | | exact Hrest].
  + rewrite Hsp, Hup, (runTest_started cfg (child k) t Ht).
    rewrite <- app_assoc. reflexivity.
  + destruct (stale_read_cache_until cfg (now1 k) (now2 k) (child k) w Hstale)
      as [E|E]; rewrite E; [lia|]. rewrite Hzero. unfold microseconds. lia.
Qed.

(** C6.  With a cache duration of zero, requests served one after the
    other on a clock that moves on between them each invoke the probe (a
    call of [subprocess.check_output]): as many invocations as requests,
    whatever the measurements give. *)
Theorem zero_cache_probes_every_read cfg t calls w :
  cache_seconds cfg = 0 ->
  timeout_setting cfg = Ret t ->
  shutdown_event w = false ->
  advancing (cache_until w) calls ->
  spawned (snd (serve cfg calls w))
  = (spawned w ++ repeat (Spawn (command cfg) t) (List.length calls))%list.
Proof.
intros Hzero Ht Hup Hadv.
apply (serve_probes_every_read cfg t Hzero Ht calls w (cache_until w));
  [exact Hup | lia | exact Hadv].
Qed.


(** *** The thread machine against the sequential function *)

Lemma finished_stays cfg clock c resp w :
  thread_run cfg clock c (Finished resp) w = (Finished resp, w).
Proof. induction clock as [|now rest IH]; [reflexivity|exact IH]. Qed.

(** A thread that runs its eleven lines with no other thread in between
    does what [updateResults] does. *)
Lemma thread_alone cfg t1 t2 c w :
  thread_run cfg (t1 :: repeat t2 10) c L115 w
  = (Finished (fst (updateResults cfg t1 t2 c w)),
     snd (updateResults cfg t1 t2 c w)).
Proof.
destruct (Z_le_gt_dec t1 (cache_until w)) as [Hfresh|Hstale].
- rewrite (fresh_read cfg t1 t2 c w Hfresh).
  cbn [Exporter.thread_run repeat Exporter.step].
  rewrite Z.gtb_ltb.
  replace (cache_until w <? t1) with false by (symmetry; apply Z.ltb_ge; lia).
  reflexivity.
- open_stale_read Hstale.
  cbn [Exporter.thread_run repeat Exporter.step].
  rewrite (gtb_stale _ _ Hstale).
  cbn [Exporter.step]. unfold goto at 1, call_runTest at 1.
  destruct (runTest (shutdown_event w) cfg c) as [evs [r|e]];
    [destruct r as [[[[[a b] d] f] g] h]|];
    repeat progress
      (cbn [Exporter.step fst snd bind];
       unfold goto, gauge_set, log_if_up, store_cache_until,
         make_wsgi_app, read, lift, retM;
       try match goal with
         | |- context [float ?f ?v] => destruct (float f v)
         | |- context [bits_to_megabits ?v] => destruct (bits_to_megabits v)
         | |- context [truthy ?v] => destruct (truthy v)
         | |- context [expiry ?c ?t] => destruct (expiry c t)
         end);
    reflexivity.
Qed.

(** Line 116 starts what [runTest] starts, whatever it then returns. *)
Lemma line_116_spawned cfg now c w :
  spawned (snd (step cfg now c L116 w))
  = (spawned w ++ fst (runTest (shutdown_event w) cfg c))%list
  /\ shutdown_event (snd (step cfg now c L116 w)) = shutdown_event w.
Proof.
cbn [Exporter.step]. unfold goto, call_runTest.
destruct (runTest (shutdown_event w) cfg c) as [evs [r|e]]; split; reflexivity.
Qed.

(** Two threads that both pass line 115 before either runs line 116 each
    invoke the probe, whatever the children do. *)
Lemma both_past_line_115_both_probe cfg t t1 t2 t3 t4 c1 c2 w :
  shutdown_event w = false ->
  timeout_setting cfg = Ret t ->
  t1 > cache_until w ->
  t2 > cache_until w ->
  spawned (snd (run cfg [(0, t1); (1, t2); (0, t3); (1, t4)]%nat
                  [arrive c1; arrive c2] w))
  = (spawned w ++ [Spawn (command cfg) t; Spawn (command cfg) t])%list.
Proof.
intros Hup Ht H1 H2.
cbn [Exporter.run Exporter.step_thread Exporter.step arrive at_line child_of].
rewrite (gtb_stale _ _ H1).
cbn [Exporter.run Exporter.step_thread Exporter.step arrive at_line child_of].
rewrite (gtb_stale _ _ H2).
cbn [Exporter.run Exporter.step_thread arrive at_line child_of].
destruct (line_116_spawned cfg t3 c1 w) as [Hs1 Hf1].
change (goto (call_runTest json_loads cfg c1 w) L117)
  with (step cfg t3 c1 L116 w).
destruct (step cfg t3 c1 L116 w) as [p1 w1]. cbn [snd] in Hs1, Hf1.
cbn [Exporter.step_thread at_line child_of].
destruct (line_116_spawned cfg t4 c2 w1) as [Hs2 Hf2].
destruct (step cfg t4 c2 L116 w1) as [p2 w2]. cbn [snd] in Hs2, Hf2.
cbn [snd].
rewrite Hs2, Hf1, Hs1, Hup.
rewrite !(runTest_started cfg _ t Ht), <- app_assoc. reflexivity.
Qed.

Lemma step_thread_nth cfg now : forall i ts w th,
  nth_error ts i = Some th ->
  step_thread cfg now i ts w =
  (set_nth i {| at_line := fst (step cfg now (child_of th) (at_line th) w);
                child_of := child_of th |} ts,
   snd (step cfg now (child_of th) (at_line th) w)).
Proof.
induction i as [|i IH]; intros [|t ts] w th H; cbn in H; try discriminate.
- injection H as ->. cbn [Exporter.step_thread set_nth].
  destruct (step cfg now (child_of th) (at_line th) w); reflexivity.
- cbn [Exporter.step_thread set_nth]. rewrite (IH ts w th H). reflexivity.
Qed.

(** A schedule that only names thread [i] runs that thread and leaves the
    others where they are. *)
Lemma run_one_thread cfg i : forall clock ts w th,
  nth_error ts i = Some th ->
  run cfg (map (pair i) clock) ts w =
  (set_nth i {| at_line := fst (thread_run cfg clock (child_of th) (at_line th) w);
                child_of := child_of th |} ts,
   snd (thread_run cfg clock (child_of th) (at_line th) w)).
Proof.
induction clock as [|now rest IH]; intros ts w th H.
- cbn. f_equal. symmetry. apply set_nth_same. destruct th; exact H.
- cbn [map Exporter.run Exporter.thread_run].
  rewrite (step_thread_nth cfg now i ts w th H).
  destruct (step cfg now (child_of th) (at_line th) w) as [p' w'].
  cbn [fst snd].
  rewrite (IH _ w' {| at_line := p'; child_of := child_of th |}
             (nth_error_set_nth ts i _ th H)).
  cbn [at_line child_of]. rewrite set_nth_twice. reflexivity.
Qed.

Lemma run_app cfg : forall s1 s2 ts w,
  run cfg (s1 ++ s2) ts w =
  run cfg s2 (fst (run cfg s1 ts w)) (snd (run cfg s1 ts w)).
Proof.
induction s1 as [|[i now] s1 IH]; intros s2 ts w; [reflexivity|].
cbn [app Exporter.run].
destruct (step_thread cfg now i ts w).
apply IH.
Qed.

(** Requests that run one after the other on the pool are [serve]. *)
Lemma serially_is_serve cfg : forall calls done w,
  run cfg (serially (List.length done) calls)
      (done ++ map (fun c => arrive (child c)) calls) w
  = ((done ++ answered calls (fst (serve cfg calls w)))%list,
     snd (serve cfg calls w)).
Proof.
induction calls as [|c rest IH]; intros done w; [reflexivity|].
cbn [serially map]. rewrite run_app.
change (alone (List.length done) c)
  with (map (pair (List.length done)) (now1 c :: repeat (now2 c) 10)).
rewrite (run_one_thread cfg _ _ _ w (arrive (child c)))
  by apply nth_error_middle.
cbn [arrive at_line child_of fst snd].
rewrite thread_alone, set_nth_middle. cbn [fst snd].
rewrite serve_cons. cbn [fst snd].
set (U := updateResults cfg (now1 c) (now2 c) (child c) w).
replace (done ++ {| at_line := Finished (fst U); child_of := child c |}
           :: map (fun c0 => arrive (child c0)) rest)%list
  with ((done ++ [{| at_line := Finished (fst U); child_of := child c |}])
          ++ map (fun c0 => arrive (child c0)) rest)%list
  by (rewrite <- app_assoc; reflexivity).
replace (S (List.length done))
  with (List.length (done ++ [{| at_line := Finished (fst U);
                                 child_of := child c |}]))
  by (rewrite List.length_app; cbn; lia).
rewrite IH. unfold answered. cbn [combine map fst snd].
rewrite <- app_assoc. reflexivity.
Qed.

Lemma answered_lines : forall calls resps,
  List.length resps = List.length calls ->
  map at_line (answered calls resps) = map Finished resps.
Proof.
unfold answered.
induction calls as [|c calls IH]; intros [|r resps] H; cbn in *;
  try discriminate; [reflexivity|].
f_equal. apply IH. lia.
Qed.

(** What a request returns is the registry it leaves. *)
Lemma response_is_registry cfg t1 t2 c w m :
  fst (updateResults cfg t1 t2 c w) = Ret m ->
  registry (snd (updateResults cfg t1 t2 c w)) = m.
Proof.
destruct (Z_le_gt_dec t1 (cache_until w)) as [Hfresh|Hstale].
- rewrite (fresh_read cfg t1 t2 c w Hfresh). cbn. congruence.
- open_stale_read Hstale.
  destruct (runTest (shutdown_event w) cfg c) as [evs [r|e]]; cbn [fst snd].
  + destruct r as [[[[[a b] d] f] g] h].
    each_statement; intros Hm; solve [congruence | discriminate Hm].
  + intros Hm. discriminate Hm.
Qed.

(** C1 (as amended).  Requests that arrive while the cache is stale and
    run one after the other -- no two of them inside [updateResults] at the
    same time -- start exactly one child process and all get the same
    response, provided the first completes and the others check the cache
    within the expiry it stores.  (The source takes no lock: nothing makes
    requests on different worker threads run one after the other.) *)
Theorem serial_stale_reads_probe_once cfg t c0 rest w m :
  shutdown_event w = false ->
  timeout_setting cfg = Ret t ->
  now1 c0 > cache_until w ->
  fst (updateResults cfg (now1 c0) (now2 c0) (child c0) w) = Ret m ->
  Forall (fun c => now1 c <= now2 c0 + microseconds (cache_seconds cfg)) rest ->
  map at_line
      (fst (run cfg (serially 0 (c0 :: rest))
              (map (fun c => arrive (child c)) (c0 :: rest)) w))
  = map (fun _ => Finished (Ret m)) (c0 :: rest)
  /\ spawned
       (snd (run cfg (serially 0 (c0 :: rest))
               (map (fun c => arrive (child c)) (c0 :: rest)) w))
     = (spawned w ++ [Spawn (command cfg) t])%list.
Proof.
intros Hup Ht Hstale Hm Hrest.
pose proof (serially_is_serve cfg (c0 :: rest) [] w) as Hrun.
cbn [List.length app] in Hrun. rewrite Hrun. cbn [fst snd].
rewrite answered_lines by apply serve_length.
rewrite serve_cons. cbn [fst snd].
set (U := updateResults cfg (now1 c0) (now2 c0) (child c0) w) in *.
assert (Hfresh : Forall (fun c => now1 c <= cache_until (snd U)) rest).
{ unfold U. rewrite (stale_read_expiry cfg _ _ _ w m Hstale Hm). exact Hrest. }
rewrite (serve_fresh cfg rest (snd U) Hfresh). cbn [fst snd].
split.
- cbn [map]. rewrite Hm, map_map. f_equal.
  unfold U. rewrite (response_is_registry cfg _ _ _ w m Hm).
  apply map_ext. reflexivity.
- unfold U.
  destruct (stale_read_spawned cfg (now1 c0) (now2 c0) (child c0) w Hstale)
    as [Hsp _].
  rewrite Hsp, Hup, (runTest_started cfg (child c0) t Ht). reflexivity.
Qed.

Lemma bad_server_id_parse_raises output d srv s :
  output <> EmptyString ->
  json_loads output = Ret (PDict d) ->
  lookup "error" d = None ->
  lookup "type" d = Some (PStr "result") ->
  lookup "server" d = Some (PDict srv) ->
  lookup "id" srv = Some (PStr s) ->
  int_of_str s = None ->
  parse output = Raise ValueError.
Proof.
intros Hne Hd He Hty Hsrv Hid Hs.
rewrite (parse_decoded output _ Hne Hd). unfold extract.
cbn [contains get getitem bind]. rewrite He, Hty. cbn [bind is_str].
rewrite Hsrv. cbn [bind getitem]. rewrite Hid. cbn [bind int]. rewrite Hs.
reflexivity.
Qed.

(** C3.  Parsing is not total: a result document whose server id is a
    string [int] rejects raises [ValueError], which [except (KeyError,
    TypeError)] does not absorb, so it leaves [parse] and [runTest]. *)
Theorem bad_server_id_escapes_parse cfg t output d srv s :
  timeout_setting cfg = Ret t ->
  output <> EmptyString ->
  json_loads output = Ret (PDict d) ->
  lookup "error" d = None ->
  lookup "type" d = Some (PStr "result") ->
  lookup "server" d = Some (PDict srv) ->
  lookup "id" srv = Some (PStr s) ->
  int_of_str s = None ->
  parse output = Raise ValueError
  /\ snd (runTest false cfg (Output output)) = Raise ValueError.
Proof.
intros Ht Hne Hd He Hty Hsrv Hid Hs.
pose proof (bad_server_id_parse_raises output d srv s
              Hne Hd He Hty Hsrv Hid Hs) as Hp.
split; [exact Hp|].
rewrite (runTest_output cfg t output Ht). exact Hp.
Qed.

(** A result document whose jitter is [null] is not absorbed either: the
    tuple comes back as a success, and the request raises [TypeError] at
    line 118 with the server gauge already written. *)
Lemma null_jitter_half_published
  cfg t t1 t2 output d srv pg dl ul n l db ub fs w :
  timeout_setting cfg = Ret t ->
  output <> EmptyString ->
  json_loads output = Ret (PDict d) ->
  lookup "error" d = None ->
  lookup "type" d = Some (PStr "result") ->
  lookup "server" d = Some (PDict srv) -> lookup "id" srv = Some (PInt n) ->
  lookup "ping" d = Some (PDict pg) ->
  lookup "jitter" pg = Some PNone -> lookup "latency" pg = Some l ->
  lookup "download" d = Some (PDict dl) ->
  lookup "bandwidth" dl = Some (PInt db) ->
  lookup "upload" d = Some (PDict ul) ->
  lookup "bandwidth" ul = Some (PInt ub) ->
  float_of_int n = Ret fs ->
  shutdown_event w = false ->
  t1 > cache_until w ->
  parse output = Ret (PInt n, PNone, l, PInt (db * 8), PInt (ub * 8), PInt 1)
  /\ updateResults cfg t1 t2 (Output output) w
     = (Raise TypeError,
        with_registry (set_gauge Server fs (registry w))
          (with_spawned (spawned w ++ [Spawn (command cfg) t])%list w)).
Proof.
intros Ht Hne Hd He Hty Hsrv Hid Hpg Hj Hl Hdl Hdb Hul Hub Hfs Hup Hstale.
assert (Hp : parse output
             = Ret (PInt n, PNone, l, PInt (db * 8), PInt (ub * 8), PInt 1)).
{ rewrite (parse_decoded output _ Hne Hd).
  rewrite (extract_result d srv pg dl ul (PInt n) PNone l (PInt db) (PInt ub))
    by assumption.
  reflexivity. }
split; [exact Hp|].
open_stale_read Hstale.
rewrite Hup, (runTest_output cfg t output Ht), Hp.
cbn [float]. rewrite Hfs. reflexivity.
Qed.

(** A document that is not an object has no [.get]: the [AttributeError]
    escapes in the same way. *)
Lemma array_output_escapes_parse output l :
  output <> EmptyString ->
  json_loads output = Ret (PList l) ->
  existsb (is_str "error") l = false ->
  parse output = Raise AttributeError.
Proof.
intros Hne Hd He. rewrite (parse_decoded output _ Hne Hd).
unfold extract. cbn [contains bind]. rewrite He. reflexivity.
Qed.

(** C2.  The sentinel is not reached for every failure: on a stale read
    whose output is a result document with a server id [int] rejects,
    [updateResults] raises [ValueError] after the child has run; no gauge
    is written, [up] included, and no expiry is stored. *)
Theorem incomplete_result_skips_publish cfg t t1 t2 output d srv s w :
  timeout_setting cfg = Ret t ->
  output <> EmptyString ->
  json_loads output = Ret (PDict d) ->
  lookup "error" d = None ->
  lookup "type" d = Some (PStr "result") ->
  lookup "server" d = Some (PDict srv) ->
  lookup "id" srv = Some (PStr s) ->
  int_of_str s = None ->
  shutdown_event w = false ->
  t1 > cache_until w ->
  updateResults cfg t1 t2 (Output output) w
  = (Raise ValueError,
     with_spawned (spawned w ++ [Spawn (command cfg) t])%list w).
Proof.
intros Ht Hne Hd He Hty Hsrv Hid Hs Hup Hstale.
open_stale_read Hstale.
rewrite Hup, (runTest_output cfg t output Ht).
rewrite (bad_server_id_parse_raises output d srv s Hne Hd He Hty Hsrv Hid Hs).
reflexivity.
Qed.

End Facts.

(* ================================================================= *)
(** ** Further properties of the code *)

(** *** Start-up *)

Lemma prefixb_spec p : forall s,
  prefixb p s = true <-> exists rest, s = String.append p rest.
Proof.
induction p as [|a p IH]; intros s; cbn [prefixb String.append].
- split; [intros _; exists s; reflexivity|reflexivity].
- destruct s as [|b s].
  + split; [discriminate|intros [rest H]; discriminate H].
  + rewrite andb_true_iff, Ascii.eqb_eq, IH. split.
    * intros [-> [rest ->]]. exists rest. reflexivity.
    * intros [rest H]. injection H as -> ->. split; [reflexivity|eauto].
Qed.

(** [p in s] on strings: [s] is some text, then [p], then some text. *)
Lemma substringb_spec p : forall s,
  substringb p s = true
  <-> exists before after,
        s = String.append before (String.append p after).
Proof.
induction s as [|c s IH]; cbn [substringb]; rewrite orb_true_iff.
- split.
  + intros [H|H]; [|discriminate H].
    apply prefixb_spec in H. destruct H as [rest ->].
    exists EmptyString, rest. reflexivity.
  + intros [[|b before] [after H]]; [|discriminate H].
    left. apply prefixb_spec. exists after. exact H.
- split.
  + intros [H|H].
    * apply prefixb_spec in H. destruct H as [rest ->].
      exists EmptyString, rest. reflexivity.
    * apply IH in H. destruct H as [before [after ->]].
      exists (String c before), after. reflexivity.
  + intros [[|b before] [after H]].
    * left. apply prefixb_spec. exists after. exact H.
    * right. apply IH. injection H as -> ->. exists before, after. reflexivity.
Qed.

Lemma main_serves speedtest_path query SPEEDTEST_PORT port :
  Startup.main speedtest_path query SPEEDTEST_PORT = Startup.Serve port
  <-> (exists path, speedtest_path = Some path /\ path <> EmptyString)
      /\ (exists before after,
            query = Startup.Version
                      (String.append before
                         (String.append Startup.official after)))
      /\ int (environ_get SPEEDTEST_PORT (PInt 9798)) = Ret port.
Proof.
unfold Startup.main, Startup.checkForBinary. split.
- destruct speedtest_path as [path|]; [|discriminate].
  cbn [truthy]. destruct (String.eqb path EmptyString) eqn:Ep;
    cbn [negb]; [discriminate|].
  apply String.eqb_neq in Ep.
  destruct query as [out| | |]; try discriminate.
  destruct (substringb Startup.official out) eqn:Es; cbn [negb];
    [|discriminate].
  apply substringb_spec in Es. destruct Es as [before [after ->]].
  destruct (int (environ_get SPEEDTEST_PORT (PInt 9798))) as [n|e];
    [|discriminate].
  intros H. injection H as ->. repeat split; eauto.
- intros [[path [-> Hp]] [[before [after ->]] Hport]].
  cbn [truthy]. apply String.eqb_neq in Hp. rewrite Hp. cbn [negb].
  replace (substringb Startup.official
             (String.append before (String.append Startup.official after)))
    with true by (symmetry; apply substringb_spec; eauto).
  cbn [negb]. rewrite Hport. reflexivity.
Qed.

Lemma main_serves_or_exits_1 speedtest_path query SPEEDTEST_PORT :
  (exists port,
     Startup.main speedtest_path query SPEEDTEST_PORT = Startup.Serve port)
  \/ Startup.main speedtest_path query SPEEDTEST_PORT = Startup.Exited 1.
Proof.
unfold Startup.main, Startup.checkForBinary.
destruct speedtest_path as [path|]; [|right; reflexivity].
destruct (negb (truthy (PStr path))); [right; reflexivity|].
destruct query as [out| | |]; try (right; reflexivity).
destruct (negb (substringb Startup.official out)); [right; reflexivity|].
destruct (int (environ_get SPEEDTEST_PORT (PInt 9798))) as [n|e];
  [left; exists n|right]; reflexivity.
Qed.

(** X1.  The program run from line 35 on, the other module-level
    statements succeeding and no signal arriving before the handlers are
    registered.  It reaches the call of waitress's [serve]
    exactly when [SPEEDTEST_CACHE_FOR] (0 when unset) goes through [int],
    no [SIGTERM] or [SIGINT] is delivered while the [try] block runs,
    [which] found the binary, the version query printed a text that
    contains "Speedtest by Ookla", and [SPEEDTEST_PORT] (9798 when unset)
    goes through [int].  It exits with status 0 exactly when line 35 went
    through and such a signal was delivered, and with status 1 in every
    other case. *)
Theorem script_serves_iff_verified
  SPEEDTEST_CACHE_FOR sig speedtest_path query SPEEDTEST_PORT :
  (forall port,
     Startup.script SPEEDTEST_CACHE_FOR sig speedtest_path query
       SPEEDTEST_PORT = Startup.Serve port
     <-> (exists cache_seconds,
            int (environ_get SPEEDTEST_CACHE_FOR (PInt 0)) = Ret cache_seconds)
         /\ sig = Startup.NoSignal
         /\ (exists path, speedtest_path = Some path /\ path <> EmptyString)
         /\ (exists before after,
               query = Startup.Version
                         (String.append before
                            (String.append Startup.official after)))
         /\ int (environ_get SPEEDTEST_PORT (PInt 9798)) = Ret port)
  /\ (Startup.script SPEEDTEST_CACHE_FOR sig speedtest_path query
        SPEEDTEST_PORT = Startup.Exited 0
      <-> (exists cache_seconds,
             int (environ_get SPEEDTEST_CACHE_FOR (PInt 0)) = Ret cache_seconds)
          /\ sig = Startup.Delivered)
  /\ ((forall port,
         Startup.script SPEEDTEST_CACHE_FOR sig speedtest_path query
           SPEEDTEST_PORT <> Startup.Serve port)
      -> Startup.script SPEEDTEST_CACHE_FOR sig speedtest_path query
           SPEEDTEST_PORT <> Startup.Exited 0
      -> Startup.script SPEEDTEST_CACHE_FOR sig speedtest_path query
           SPEEDTEST_PORT = Startup.Exited 1).
Proof.
unfold Startup.script, Startup.cache_seconds_setting.
destruct (int (environ_get SPEEDTEST_CACHE_FOR (PInt 0))) as [cs|e].
- destruct sig.
  + split; [|split].
    * intros port. rewrite main_serves. split.
      -- intros H. split; [exists cs; reflexivity|]. split; [reflexivity|].
         exact H.
      -- intros [_ [_ H]]. exact H.
    * split; [|intros [_ H]; discriminate H].
      intros H.
      destruct (main_serves_or_exits_1 speedtest_path query SPEEDTEST_PORT)
        as [[port Hp]|H1]; [rewrite Hp in H|rewrite H1 in H]; discriminate H.
    * intros Hno _.
      destruct (main_serves_or_exits_1 speedtest_path query SPEEDTEST_PORT)
        as [[port Hp]|H1]; [contradiction (Hno port)|exact H1].
  + split; [|split].
    * intros port. split; [discriminate|].
      intros [_ [H _]]. discriminate H.
    * split; [intros _; split; [exists cs|]; reflexivity|reflexivity].
    * intros _ H. contradiction H. reflexivity.
- split; [|split].
  + intros port. split; [discriminate|].
    intros [[n H] _]. discriminate H.
  + split; [discriminate|]. intros [[n H] _]. discriminate H.
  + reflexivity.
Qed.

(** *** The command line and the conversion *)

(** X2.  The command always starts with the five fixed arguments and has
    at most one more; [--server-id=s] is among them exactly when
    [SPEEDTEST_SERVER] is set to the non-empty [s]. *)
Theorem command_pins_server_iff_set cfg s :
  firstn 5 (command cfg) = base_cmd
  /\ (List.length (command cfg) <= 6)%nat
  /\ (In (String.append "--server-id=" s) (command cfg)
      <-> SPEEDTEST_SERVER cfg = Some s /\ s <> EmptyString).
Proof.
unfold command. destruct (SPEEDTEST_SERVER cfg) as [s'|].
- cbn [truthy]. destruct (String.eqb s' EmptyString) eqn:E; cbn [negb].
  + apply String.eqb_eq in E. subst s'.
    split; [reflexivity|]. split; [cbn; lia|]. split.
    * cbn. intros H. repeat destruct H as [H|H]; try discriminate H;
        contradiction.
    * intros [H Hne]. injection H as <-. contradiction.
  + apply String.eqb_neq in E.
    split; [reflexivity|]. split; [cbn; lia|]. split.
    * rewrite in_app_iff. cbn. intros [H|[H|[]]].
      -- repeat destruct H as [H|H]; try discriminate H; contradiction.
      -- injection H as ->. split; [reflexivity|exact E].
    * intros [H _]. injection H as ->. rewrite in_app_iff. right. left.
      reflexivity.
- split; [reflexivity|]. split; [cbn; lia|]. split.
  + cbn. intros H. repeat destruct H as [H|H]; try discriminate H;
      contradiction.
  + intros [H _]. discriminate H.
Qed.

(** X3.  On a normal double, [bytes_to_bits] is exact: the mantissa is
    kept and the exponent grows by three, as long as the product stays
    below the largest double. *)
Theorem bytes_to_bits_normal_double_exact s m e :
  digits2_pos m = 53%positive ->
  -1074 <= e ->
  e <= 968 ->
  bytes_to_bits (PFloat (S754_finite s m e))
  = Ret (PFloat (S754_finite s m (e + 3))).
Proof.
intros Hd Hlo Hhi. exact (bytes_to_bits_normal s m e Hd Hlo Hhi).
Qed.

(** *** What [runTest] can return and raise *)

Lemma int_raises v e :
  int v = Raise e -> e = ValueError \/ e = OverflowError \/ e = TypeError.
Proof.
destruct v; cbn [int]; try (intros H; injection H as <-; auto; fail);
  try discriminate.
- destruct f; cbn [int_of_float]; try discriminate;
    intros H; injection H as <-; auto.
- destruct (int_of_str s); [discriminate|]. intros H. injection H as <-. auto.
Qed.

Lemma getitem_raises v k e :
  getitem v k = Raise e -> e = KeyError \/ e = TypeError.
Proof.
destruct v; cbn [getitem]; try (intros H; injection H as <-; auto; fail).
destruct (lookup k d); [discriminate|]. intros H. injection H as <-. auto.
Qed.

Lemma bytes_to_bits_raises v e : bytes_to_bits v = Raise e -> e = TypeError.
Proof.
destruct v; cbn [bytes_to_bits mul8]; try discriminate;
  intros H; injection H as <-; reflexivity.
Qed.

(** Lines 99-102, after the server id has gone through [int]: whatever is
    raised there is a [KeyError] or a [TypeError]. *)
Lemma extract_tail_absorbed data n :
  exists r,
    except_key_type
      (pg <- getitem data "ping" ;;
       r_jitter <- getitem pg "jitter" ;;
       pg' <- getitem data "ping" ;;
       r_ping <- getitem pg' "latency" ;;
       dl <- getitem data "download" ;;
       dbw <- getitem dl "bandwidth" ;;
       r_download <- bytes_to_bits dbw ;;
       ul <- getitem data "upload" ;;
       ubw <- getitem ul "bandwidth" ;;
       r_upload <- bytes_to_bits ubw ;;
       Ret (PInt n, r_jitter, r_ping, r_download, r_upload, PInt 1))
    = Ret r
    /\ (r = sentinel
        \/ exists j l d u, r = (PInt n, j, l, d, u, PInt 1)).
Proof.
repeat
  match goal with
  | |- context [bind ?m _] =>
      let E := fresh "E" in
      destruct m as [?|?] eqn:E; cbn [bind];
      [| first [apply getitem_raises in E; destruct E; subst
               | apply bytes_to_bits_raises in E; subst];
         cbn [except_key_type];
         (eexists; split; [reflexivity|left; reflexivity]) ]
  end.
cbn [except_key_type]. eexists. split; [reflexivity|]. right. eauto.
Qed.

Lemma extract_shape data r :
  except_key_type (extract data) = Ret r ->
  r = sentinel \/ exists n j l d u, r = (PInt n, j, l, d, u, PInt 1).
Proof.
unfold extract.
destruct (contains "error" data) as [[|]|e]; cbn [bind].
- destruct (getitem data "error") as [v|e]; cbn [bind].
  + intros H. injection H as <-. auto.
  + destruct e; cbn [except_key_type]; intros H;
      solve [injection H as <-; auto | discriminate H].
- destruct (get data "type") as [ty|e]; cbn [bind].
  + destruct (is_str "result" ty).
    * destruct (getitem data "server") as [srv|e]; cbn [bind];
        [|destruct e; cbn [except_key_type]; intros H;
          solve [injection H as <-; auto | discriminate H]].
      destruct (getitem srv "id") as [idv|e]; cbn [bind];
        [|destruct e; cbn [except_key_type]; intros H;
          solve [injection H as <-; auto | discriminate H]].
      destruct (int idv) as [n|e]; cbn [bind];
        [|destruct e; cbn [except_key_type]; intros H;
          solve [injection H as <-; auto | discriminate H]].
      destruct (extract_tail_absorbed data n) as [r' [-> Hr']].
      intros H. injection H as <-.
      destruct Hr' as [->|(j & l & d & u & ->)]; [auto|].
      right. exists n, j, l, d, u. reflexivity.
    * intros H. injection H as <-. auto.
  + destruct e; cbn [except_key_type]; intros H;
      solve [injection H as <-; auto | discriminate H].
- destruct e; cbn [except_key_type]; intros H;
    solve [injection H as <-; auto | discriminate H].
Qed.

Section MoreFacts.

Variable json_loads : string -> res value.
Variable float_of_str : string -> option float64.

Local Abbreviation parse := (parse json_loads).
Local Abbreviation runTest := (runTest json_loads).
Local Abbreviation updateResults := (updateResults json_loads float_of_str).
Local Abbreviation serve := (serve json_loads float_of_str).
Local Abbreviation step := (step json_loads float_of_str).
Local Abbreviation run := (run json_loads float_of_str).
Local Abbreviation step_thread := (step_thread json_loads float_of_str).

Lemma parse_shape output r :
  parse output = Ret r ->
  r = sentinel \/ exists n j l d u, r = (PInt n, j, l, d, u, PInt 1).
Proof.
unfold Exporter.parse.
destruct (is_json json_loads output) as [[|]|e]; cbn [bind negb];
  [|intros H; injection H as <-; auto|discriminate].
destruct (json_loads output) as [data|e]; cbn [bind].
- apply extract_shape.
- destruct e; cbn [except_key_type]; intros H;
    solve [injection H as <-; auto | discriminate H].
Qed.

(** X4.  Whatever [runTest] returns is either the sentinel or a tuple
    whose server id is an [int] and whose status is 1: a status of 0 never
    comes with a measured value. *)
Theorem runTest_returns_sentinel_or_success shutdown cfg c r :
  snd (runTest shutdown cfg c) = Ret r ->
  r = sentinel \/ exists n j l d u, r = (PInt n, j, l, d, u, PInt 1).
Proof.
unfold Exporter.runTest. destruct shutdown; cbn [snd].
- intros H. injection H as <-. auto.
- destruct (timeout_setting cfg) as [t|e]; cbn [snd]; [|discriminate].
  destruct c as [output| | |e].
  + apply parse_shape.
  + intros H. injection H as <-. auto.
  + intros H. injection H as <-. auto.
  + discriminate.
Qed.

(** *** Documents that are not what the tool prints *)

(** X6.  From a document that is a JSON object, the only exception that
    leaves [parse] comes from [int] on the server id of a result payload:
    every missing key and every other wrong type is absorbed. *)
Theorem object_escapes_only_through_server_id output d e :
  output <> EmptyString ->
  json_loads output = Ret (PDict d) ->
  parse output = Raise e ->
  lookup "error" d = None
  /\ lookup "type" d = Some (PStr "result")
  /\ exists srv idv,
       lookup "server" d = Some (PDict srv)
       /\ lookup "id" srv = Some idv
       /\ int idv = Raise e
       /\ (e = ValueError \/ e = OverflowError).
Proof.
intros Hne Hd. rewrite (parse_decoded json_loads output _ Hne Hd).
unfold extract. cbn [contains get getitem bind].
destruct (lookup "error" d) as [v|]; cbn [bind except_key_type];
  [discriminate|].
destruct (lookup "type" d) as [ty|]; cbn [bind is_str except_key_type];
  [|discriminate].
destruct ty; cbn [is_str except_key_type]; try discriminate.
destruct (String.eqb s "result") eqn:Es; cbn [except_key_type];
  [|discriminate].
apply String.eqb_eq in Es. subst s.
destruct (lookup "server" d) as [srv|]; cbn [bind except_key_type];
  [|discriminate].
destruct srv; cbn [getitem bind except_key_type]; try discriminate.
destruct (lookup "id" d0) as [idv|] eqn:Eid; cbn [bind except_key_type];
  [|discriminate].
destruct (int idv) as [n|e'] eqn:Ei; cbn [bind].
- destruct (extract_tail_absorbed (PDict d) n) as [r [Hr _]].
  cbn [getitem] in Hr. rewrite Hr. discriminate.
- intros H.
  destruct (int_raises idv e' Ei) as [-> | [-> | ->]];
    cbn [except_key_type] in H; try discriminate H;
    injection H as <-;
    (split; [reflexivity|split; [reflexivity|exists d0, idv; auto]]).
Qed.

(** X7.  A document that is not a JSON object: a scalar, or a string or
    array that contains ["error"], gives the sentinel; a string or array
    that does not raises [AttributeError] at [data.get]. *)
Theorem document_not_an_object output data :
  output <> EmptyString ->
  json_loads output = Ret data ->
  (forall d, data <> PDict d) ->
  parse output =
    match contains "error" data with
    | Ret false => Raise AttributeError
    | _ => Ret sentinel
    end.
Proof.
intros Hne Hd Hobj. rewrite (parse_decoded json_loads output _ Hne Hd).
unfold extract.
destruct data; cbn [contains bind get getitem except_key_type];
  try reflexivity.
- destruct (substringb "error" s); reflexivity.
- destruct (existsb (is_str "error") l); reflexivity.
- contradiction (Hobj d). reflexivity.
Qed.

(** *** One request *)

Ltac by_statement :=
  repeat match goal with
    | |- context [float ?f ?v] => destruct (float f v); cbn [fst snd]
    | |- context [bits_to_megabits ?v] =>
        destruct (bits_to_megabits v); cbn [fst snd bind]
    | |- context [truthy ?v] => destruct (truthy v); cbn [fst snd]
    | |- context [expiry ?c ?t] => destruct (expiry c t); cbn [fst snd]
    end.

Ltac unfold_stale H :=
  rewrite (stale_read json_loads float_of_str _ _ _ _ _ H);
  unfold bindM, call_runTest, gauge_set, log_if_up, store_cache_until,
    make_wsgi_app, read, lift, retM.

Lemma with_spawned_same w : with_spawned (spawned w ++ [])%list w = w.
Proof. rewrite app_nil_r. destruct w; reflexivity. Qed.

(** X8.  With a [SPEEDTEST_TIMEOUT] that [int] rejects, every request that
    finds the cache stale raises [ValueError] before a child is started:
    nothing is published, nothing is cached and the state stays as it
    was, request after request. *)
Theorem invalid_timeout_fails_every_stale_request cfg s calls w :
  SPEEDTEST_TIMEOUT cfg = Some s ->
  int_of_str s = None ->
  shutdown_event w = false ->
  Forall (fun c => now1 c > cache_until w) calls ->
  serve cfg calls w = (map (fun _ => Raise ValueError) calls, w).
Proof.
intros Hset Hs Hup Hstale.
assert (Hrun : forall c, runTest false cfg c = ([], Raise ValueError)).
{ intros c. unfold Exporter.runTest, timeout_setting.
  rewrite Hset. cbn [environ_get int]. rewrite Hs. reflexivity. }
induction Hstale as [|c rest Hc _ IH]; [reflexivity|].
rewrite (serve_cons json_loads float_of_str).
assert (HU : updateResults cfg (now1 c) (now2 c) (child c) w
             = (Raise ValueError, w)).
{ unfold_stale Hc. rewrite Hup, Hrun. cbn [fst snd].
  rewrite with_spawned_same. reflexivity. }
rewrite HU. cbn [fst snd]. rewrite IH. reflexivity.
Qed.

(** The failures [runTest] turns into the sentinel: a child that timed
    out or exited with an error status, an output that is empty or does
    not decode, and a decoded document with an ["error"] key, with a type
    other than ["result"], or on which the extraction raises [KeyError] or
    [TypeError]. *)
Definition absorbed (c : completed) : Prop :=
  c = TimeoutExpired
  \/ c = CalledProcessError
  \/ exists output,
       c = Output output
       /\ (is_json json_loads output = Ret false
           \/ exists data,
                output <> EmptyString
                /\ json_loads output = Ret data
                /\ ((exists d v, data = PDict d /\ lookup "error" d = Some v)
                    \/ (exists d, data = PDict d
                                  /\ lookup "error" d = None
                                  /\ lookup "type" d <> Some (PStr "result"))
                    \/ extract data = Raise KeyError
                    \/ extract data = Raise TypeError)).

Lemma absorbed_sentinel cfg t c :
  timeout_setting cfg = Ret t ->
  absorbed c ->
  runTest false cfg c = ([Spawn (command cfg) t], Ret sentinel).
Proof.
intros Ht [-> | [-> | [output [-> H]]]].
- apply runTest_timeout_expired, Ht.
- apply runTest_called_process_error, Ht.
- rewrite (runTest_output json_loads cfg t output Ht). f_equal.
  destruct H as [H|[data [Hne [Hd H]]]].
  + apply parse_malformed, H.
  + rewrite (parse_decoded json_loads output data Hne Hd).
    destruct H as [[d [v [-> He]]] | [[d [-> [He Hty]]] | [H | H]]].
    * apply (extract_error_key d v He).
    * rewrite (extract_not_result d He Hty). reflexivity.
    * rewrite H. reflexivity.
    * rewrite H. reflexivity.
Qed.

(** X9.  A stale request whose measurement fails in one of the absorbed
    ways invokes the probe once and sets all six gauges to zero ([up]
    included).  When the clock reading of line 127 plus the cache duration
    is a [datetime] it answers with the zeros and stores that expiry;
    otherwise line 127 raises [OverflowError] and the old expiry stays. *)
Theorem absorbed_failure_publishes_zeros cfg t t1 t2 c w :
  shutdown_event w = false ->
  timeout_setting cfg = Ret t ->
  absorbed c ->
  t1 > cache_until w ->
  updateResults cfg t1 t2 c w =
    if storable cfg t2 then
      (Ret zeros,
       {| cache_until := t2 + microseconds (cache_seconds cfg);
          registry := zeros;
          shutdown_event := false;
          spawned := (spawned w ++ [Spawn (command cfg) t])%list |})
    else
      (Raise OverflowError,
       {| cache_until := cache_until w;
          registry := zeros;
          shutdown_event := false;
          spawned := (spawned w ++ [Spawn (command cfg) t])%list |}).
Proof.
intros Hup Ht Hc Hstale.
rewrite (stale_read_sentinel json_loads float_of_str cfg t1 t2 c w
           [Spawn (command cfg) t] Hstale).
- rewrite Hup. reflexivity.
- rewrite Hup. apply absorbed_sentinel; assumption.
Qed.

Lemma float_one : float float_of_str (PInt 1) = Ret fone.
Proof. vm_compute. reflexivity. Qed.

(** X10.  A stale request that completes answers either with six zeros or
    with [up] at 1: a completed measurement never leaves [up] at 0 beside
    measured values. *)
Theorem completed_stale_request_zeros_or_up cfg t1 t2 c w m :
  t1 > cache_until w ->
  fst (updateResults cfg t1 t2 c w) = Ret m ->
  m = zeros \/ up m = fone.
Proof.
intros Hstale.
destruct (runTest (shutdown_event w) cfg c) as [evs [r|e]] eqn:E.
- destruct (runTest_returns_sentinel_or_success (shutdown_event w) cfg c r)
    as [-> | (n & j & l & d & u & ->)]; [rewrite E; reflexivity| |].
  + rewrite (stale_read_sentinel json_loads float_of_str cfg t1 t2 c w evs
               Hstale E).
    destruct (storable cfg t2); cbn [fst]; [|discriminate].
    intros H. injection H as <-. left. reflexivity.
  + unfold_stale Hstale. rewrite E. rewrite float_one.
    by_statement; intros H;
      solve [discriminate H | injection H as <-; right; reflexivity].
- unfold_stale Hstale. rewrite E. discriminate.
Qed.

(** X11.  A request raises only when it found the cache stale, and then it
    stores no expiry: the failure is not cached, and any request at that
    clock reading or later measures again. *)
Theorem raising_request_is_not_cached cfg t1 t2 c w e :
  fst (updateResults cfg t1 t2 c w) = Raise e ->
  t1 > cache_until w
  /\ cache_until (snd (updateResults cfg t1 t2 c w)) = cache_until w
  /\ forall t, t1 <= t -> t > cache_until (snd (updateResults cfg t1 t2 c w)).
Proof.
destruct (Z_le_gt_dec t1 (cache_until w)) as [Hfresh|Hstale].
- rewrite (fresh_read json_loads float_of_str cfg t1 t2 c w Hfresh).
  discriminate.
- intros H.
  assert (Hc : cache_until (snd (updateResults cfg t1 t2 c w))
               = cache_until w).
  { revert H. unfold_stale Hstale.
    destruct (runTest (shutdown_event w) cfg c) as [evs [r|e']];
      cbn [fst snd]; [|reflexivity].
    destruct r as [[[[[a b] d] f] g] h].
    by_statement; intros H; solve [discriminate H | reflexivity]. }
  split; [exact Hstale|]. split; [exact Hc|]. intros t Ht. rewrite Hc. lia.
Qed.

(** X12.  When the log line of a successful measurement raises, all six
    gauges are already written ([up] is 1) but the expiry is not stored:
    the request fails and the next one measures again. *)
Theorem log_failure_after_publish
  cfg t1 t2 c w evs a b d f g h fa fb fd ff fg fh x :
  t1 > cache_until w ->
  runTest (shutdown_event w) cfg c = (evs, Ret (a, b, d, f, g, h)) ->
  float float_of_str a = Ret fa -> float float_of_str b = Ret fb ->
  float float_of_str d = Ret fd -> float float_of_str f = Ret ff ->
  float float_of_str g = Ret fg -> float float_of_str h = Ret fh ->
  truthy h = true ->
  (bits_to_megabits f ;;; bits_to_megabits g) = Raise x ->
  updateResults cfg t1 t2 c w =
    (Raise x,
     {| cache_until := cache_until w;
        registry := {| server := fa; jitter := fb; ping := fd;
                       download_speed := ff; upload_speed := fg; up := fh |};
        shutdown_event := shutdown_event w;
        spawned := (spawned w ++ evs)%list |}).
Proof.
intros Hstale Hrun Ha Hb Hd Hf Hg Hh Ht Hlog.
unfold_stale Hstale. rewrite Hrun, Ha, Hb, Hd, Hf, Hg, Hh, Ht.
cbn [fst snd]. rewrite Hlog. reflexivity.
Qed.

(** *** Sequences of requests *)

Lemma runTest_starts_at_most_one shutdown cfg c t :
  timeout_setting cfg = Ret t ->
  fst (runTest shutdown cfg c) = []
  \/ fst (runTest shutdown cfg c) = [Spawn (command cfg) t].
Proof.
intros Ht. unfold Exporter.runTest. destruct shutdown; [left; reflexivity|].
rewrite Ht. right. reflexivity.
Qed.

Lemma request_starts_at_most_one cfg t t1 t2 c w :
  timeout_setting cfg = Ret t ->
  exists k, (k <= 1)%nat
    /\ spawned (snd (updateResults cfg t1 t2 c w))
       = (spawned w ++ repeat (Spawn (command cfg) t) k)%list.
Proof.
intros Ht. destruct (Z_le_gt_dec t1 (cache_until w)) as [Hfresh|Hstale].
- exists 0%nat. rewrite (fresh_read json_loads float_of_str cfg t1 t2 c w Hfresh).
  cbn. split; [lia|]. symmetry. apply app_nil_r.
- destruct (stale_read_spawned json_loads float_of_str cfg t1 t2 c w Hstale)
    as [Hsp _].
  rewrite Hsp.
  destruct (runTest_starts_at_most_one (shutdown_event w) cfg c t Ht)
    as [-> | ->].
  + exists 0%nat. split; [lia|reflexivity].
  + exists 1%nat. split; [lia|reflexivity].
Qed.

(** X13.  There is no retry: however the measurements end, a sequence of
    requests starts at most one child per request, each with the same
    command line and timeout, and only ever adds to the log of children
    started. *)
Theorem serve_starts_at_most_one_child_per_request cfg t calls w :
  timeout_setting cfg = Ret t ->
  exists k, (k <= List.length calls)%nat
    /\ spawned (snd (serve cfg calls w))
       = (spawned w ++ repeat (Spawn (command cfg) t) k)%list.
Proof.
intros Ht. revert w. induction calls as [|c rest IH]; intros w.
- exists 0%nat. cbn. split; [lia|]. symmetry. apply app_nil_r.
- rewrite (serve_cons json_loads float_of_str). cbn [snd].
  destruct (request_starts_at_most_one cfg t (now1 c) (now2 c) (child c) w Ht)
    as [k1 [Hk1 H1]].
  destruct (IH (snd (updateResults cfg (now1 c) (now2 c) (child c) w)))
    as [k2 [Hk2 H2]].
  exists (k1 + k2)%nat. split; [cbn [List.length]; lia|].
  rewrite H2, H1, <- app_assoc, repeat_app. reflexivity.
Qed.

(** X14.  With a cache duration that is not negative and a clock that does
    not run backwards inside a request, the expiry never moves back over
    a sequence of requests. *)
Theorem expiry_never_moves_back cfg calls w :
  0 <= cache_seconds cfg ->
  Forall (fun c => now1 c <= now2 c) calls ->
  cache_until w <= cache_until (snd (serve cfg calls w)).
Proof.
intros Hpos Hclock. revert w.
induction Hclock as [|c rest Hc _ IH]; intros w; [cbn; lia|].
rewrite (serve_cons json_loads float_of_str). cbn [snd].
specialize (IH (snd (updateResults cfg (now1 c) (now2 c) (child c) w))).
assert (cache_until w
        <= cache_until (snd (updateResults cfg (now1 c) (now2 c) (child c) w))).
{ destruct (Z_le_gt_dec (now1 c) (cache_until w)) as [Hfresh|Hstale].
  - rewrite (fresh_read json_loads float_of_str cfg _ _ _ w Hfresh). cbn. lia.
  - destruct (stale_read_cache_until json_loads float_of_str cfg
                (now1 c) (now2 c) (child c) w Hstale) as [E|E];
      rewrite E; unfold microseconds; lia. }
lia.
Qed.

(** X15.  With a cache duration of zero or below, nothing is ever served
    from the cache: on a clock that moves on between requests every
    request invokes the probe. *)
Theorem nonpositive_cache_probes_every_read cfg t calls w :
  cache_seconds cfg <= 0 ->
  timeout_setting cfg = Ret t ->
  shutdown_event w = false ->
  advancing (cache_until w) calls ->
  spawned (snd (serve cfg calls w))
  = (spawned w ++ repeat (Spawn (command cfg) t) (List.length calls))%list.
Proof.
intros Hneg Ht.
assert (G : forall calls w prev,
          shutdown_event w = false ->
          cache_until w <= prev ->
          advancing prev calls ->
          spawned (snd (serve cfg calls w))
          = (spawned w
             ++ repeat (Spawn (command cfg) t) (List.length calls))%list).
{ clear calls w. induction calls as [|k rest IH]; intros w prev Hup Hle Hadv.
  - cbn. symmetry. apply app_nil_r.
  - destruct Hadv as (H1 & H2 & Hrest).
    assert (Hstale : now1 k > cache_until w) by lia.
    rewrite (serve_cons json_loads float_of_str). cbn [snd].
    destruct (stale_read_spawned json_loads float_of_str cfg
                (now1 k) (now2 k) (child k) w Hstale) as [Hsp Hflag].
    rewrite (IH _ (now2 k)); [| congruence | | exact Hrest].
    + rewrite Hsp, Hup, (runTest_started json_loads cfg (child k) t Ht).
      rewrite <- app_assoc. reflexivity.
    + destruct (stale_read_cache_until json_loads float_of_str cfg
                  (now1 k) (now2 k) (child k) w Hstale) as [E|E];
        rewrite E; unfold microseconds; lia. }
intros Hup Hadv. apply (G calls w (cache_until w)); [exact Hup|lia|exact Hadv].
Qed.

(** *** The worker pool under any schedule *)

(** A thread that has not yet run line 116. *)
Definition waiting (p : pc) : nat :=
  match p with
  | L115 | L116 => 1
  | _ => 0
  end.

Fixpoint all_waiting (ts : list thread) : nat :=
  match ts with
  | [] => 0
  | th :: rest => waiting (at_line th) + all_waiting rest
  end.

Lemma step_starts_by_waiting cfg now c p w :
  (List.length (spawned (snd (step cfg now c p w)))
   + waiting (fst (step cfg now c p w))
   <= List.length (spawned w) + waiting p)%nat.
Proof.
destruct p; cbn [Exporter.step waiting];
  try (destruct r as [[[[[a b] d] f] g] h]);
  unfold goto, call_runTest, gauge_set, log_if_up, store_cache_until,
    make_wsgi_app, read, lift, retM.
- destruct (now >? cache_until w); cbn; lia.
- destruct (runTest (shutdown_event w) cfg c) as [evs r] eqn:E.
  assert (Hlen : (List.length evs <= 1)%nat).
  { pose proof (f_equal fst E) as E1. cbn [fst] in E1. subst evs.
    unfold Exporter.runTest. destruct (shutdown_event w); [cbn; lia|].
    destruct (timeout_setting cfg); cbn; lia. }
  destruct r; cbn [fst snd spawned with_spawned waiting];
    rewrite List.length_app; lia.
- by_statement; cbn; lia.
- by_statement; cbn; lia.
- by_statement; cbn; lia.
- by_statement; cbn; lia.
- by_statement; cbn; lia.
- by_statement; cbn; lia.
- by_statement; cbn; lia.
- by_statement; cbn; lia.
- cbn; lia.
- cbn; lia.
Qed.

Lemma step_thread_starts_by_waiting cfg now : forall i ts w,
  (List.length (spawned (snd (step_thread cfg now i ts w)))
   + all_waiting (fst (step_thread cfg now i ts w))
   <= List.length (spawned w) + all_waiting ts)%nat.
Proof.
induction i as [|i IH]; intros [|th ts] w; cbn [Exporter.step_thread];
  try (cbn; lia).
- pose proof (step_starts_by_waiting cfg now (child_of th) (at_line th) w).
  destruct (step cfg now (child_of th) (at_line th) w) as [p' w'].
  cbn [fst snd all_waiting at_line] in *. lia.
- specialize (IH ts w).
  destruct (step_thread cfg now i ts w) as [ts' w'].
  cbn [fst snd all_waiting] in *. lia.
Qed.

Lemma run_starts_by_waiting cfg : forall schedule ts w,
  (List.length (spawned (snd (run cfg schedule ts w)))
   <= List.length (spawned w) + all_waiting ts)%nat.
Proof.
induction schedule as [|[i now] rest IH]; intros ts w;
  cbn [Exporter.run]; [cbn; lia|].
pose proof (step_thread_starts_by_waiting cfg now i ts w) as H.
destruct (step_thread cfg now i ts w) as [ts' w']. cbn [fst snd] in H.
specialize (IH ts' w'). lia.
Qed.

(** X16.  Whatever the interleaving of the worker threads, the requests in
    flight start at most one child each: the missing lock lets concurrent
    stale requests measure in parallel, but none measures twice. *)
Theorem pool_starts_at_most_one_child_per_request cfg schedule children w :
  (List.length (spawned (snd (run cfg schedule (map arrive children) w)))
   <= List.length (spawned w) + List.length children)%nat.
Proof.
assert (E : all_waiting (map arrive children) = List.length children).
{ induction children as [|c cs IH]; [reflexivity|].
  cbn [map all_waiting arrive at_line waiting List.length]. rewrite IH.
  reflexivity. }
pose proof (run_starts_by_waiting cfg schedule (map arrive children) w) as H.
lia.
Qed.

(** *** Composition *)

Lemma serve_app cfg : forall l1 l2 w,
  serve cfg (l1 ++ l2) w =
  ((fst (serve cfg l1 w) ++ fst (serve cfg l2 (snd (serve cfg l1 w))))%list,
   snd (serve cfg l2 (snd (serve cfg l1 w)))).
Proof.
induction l1 as [|c l1 IH]; intros l2 w.
- cbn [app Exporter.serve fst snd]. destruct (serve cfg l2 w); reflexivity.
- cbn [app]. rewrite !(serve_cons json_loads float_of_str), IH.
  reflexivity.
Qed.

(** X17.  The shutdown signal does not empty the cache: requests inside
    the window are still answered with the last measurement, and the first
    request after the window replaces it with six zeros without invoking
    the probe; it stores the new expiry when that is a [datetime], and
    raises [OverflowError] at line 127 otherwise. *)
Theorem shutdown_serves_cache_then_zeros cfg fresh c w :
  Forall (fun k => now1 k <= cache_until w) fresh ->
  now1 c > cache_until w ->
  serve cfg (fresh ++ [c]) (signal_handler w) =
    if storable cfg (now2 c) then
      ((map (fun _ => Ret (registry w)) fresh ++ [Ret zeros])%list,
       {| cache_until := now2 c + microseconds (cache_seconds cfg);
          registry := zeros;
          shutdown_event := true;
          spawned := spawned w |})
    else
      ((map (fun _ => Ret (registry w)) fresh ++ [Raise OverflowError])%list,
       {| cache_until := cache_until w;
          registry := zeros;
          shutdown_event := true;
          spawned := spawned w |}).
Proof.
intros Hfresh Hstale.
rewrite serve_app.
rewrite (serve_fresh json_loads float_of_str cfg fresh (signal_handler w))
  by exact Hfresh.
cbn [fst snd Exporter.serve].
rewrite (stale_read_sentinel json_loads float_of_str cfg (now1 c) (now2 c)
           (child c) (signal_handler w) []); [|exact Hstale|reflexivity].
cbn [signal_handler registry shutdown_event spawned cache_until].
rewrite app_nil_r. destruct (storable cfg (now2 c)); reflexivity.
Qed.

(** X18.  On the worker pool, requests that run one after the other --
    each thread through all its lines before the next starts -- give the
    responses and the final state of [serve]. *)
Theorem pool_run_serially_is_serve cfg calls w :
  run cfg (serially 0 calls) (map (fun c => arrive (child c)) calls) w
  = (answered calls (fst (serve cfg calls w)), snd (serve cfg calls w)).
Proof.
exact (serially_is_serve json_loads float_of_str cfg calls [] w).
Qed.

End MoreFacts.

(* ================================================================= *)
(** ** The properties on concrete runs *)

Lemma warm_reached :
  updateResults (loads_only payload_text payload) no_float_of_str cfg60
    (microseconds 100) (microseconds 120) (Output payload_text) boot
  = (Ret measured, warm).
Proof. vm_compute. reflexivity. Qed.

(** C1, counterexample.  Two overlapping stale requests start two child
    processes and are answered differently. *)
Lemma overlapping_stale_reads_probe_twice :
  let final :=
    run scenario_loads no_float_of_str cfg60 overlapping
      [arrive (Output payload_text); arrive TimeoutExpired] boot in
  spawned (snd final) = [Spawn base_cmd 90; Spawn base_cmd 90]
  /\ map at_line (fst final)
     = [Finished (Ret measured); Finished (Ret zeros)]
  /\ measured <> zeros.
Proof.
vm_compute. repeat split. discriminate.
Qed.

(** Three requests at 100 s, 130 s and 180 s, one after the other. *)
Lemma serial_stale_reads_probe_once_witness :
  let calls :=
    [ {| now1 := microseconds 100; now2 := microseconds 120;
         child := Output payload_text |};
      {| now1 := microseconds 130; now2 := microseconds 131;
         child := TimeoutExpired |};
      {| now1 := microseconds 180; now2 := microseconds 181;
         child := CalledProcessError |} ] in
  let final :=
    run scenario_loads no_float_of_str cfg60 (serially 0 calls)
      (map (fun c => arrive (child c)) calls) boot in
  map at_line (fst final) = map (fun _ => Finished (Ret measured)) calls
  /\ spawned (snd final) = (spawned boot ++ [Spawn (command cfg60) 90])%list.
Proof.
apply (serial_stale_reads_probe_once scenario_loads no_float_of_str cfg60 90).
- reflexivity.
- reflexivity.
- vm_compute. reflexivity.
- vm_compute. reflexivity.
- repeat constructor; vm_compute; discriminate.
Defined.

(** A stale request at 200 s whose child prints the document with the
    server id ["abc"]: the exception leaves [up] at 1. *)
Lemma incomplete_result_skips_publish_witness :
  updateResults bad_id_loads no_float_of_str cfg60
    (microseconds 200) (microseconds 220) (Output bad_id_text) warm
  = (Raise ValueError,
     with_spawned (spawned warm ++ [Spawn (command cfg60) 90])%list warm)
  /\ up (registry warm) = fone.
Proof.
split; [|reflexivity].
apply (incomplete_result_skips_publish bad_id_loads no_float_of_str cfg60 90
         (microseconds 200) (microseconds 220) bad_id_text
         [("type", PStr "result");
          ("server", PDict [("id", PStr "abc")]);
          ("ping", PDict [("jitter", PFloat (decimal 15 1));
                          ("latency", PFloat (decimal 102 1))]);
          ("download", PDict [("bandwidth", PInt 12500000)]);
          ("upload", PDict [("bandwidth", PInt 1250000)])]
         [("id", PStr "abc")] "abc" warm).
- reflexivity.
- discriminate.
- reflexivity.
- reflexivity.
- reflexivity.
- reflexivity.
- reflexivity.
- reflexivity.
- reflexivity.
- vm_compute. reflexivity.
Defined.

Lemma bad_server_id_escapes_parse_witness :
  parse bad_id_loads bad_id_text = Raise ValueError
  /\ snd (runTest bad_id_loads false cfg60 (Output bad_id_text))
     = Raise ValueError.
Proof.
apply (bad_server_id_escapes_parse bad_id_loads cfg60 90 bad_id_text
         [("type", PStr "result");
          ("server", PDict [("id", PStr "abc")]);
          ("ping", PDict [("jitter", PFloat (decimal 15 1));
                          ("latency", PFloat (decimal 102 1))]);
          ("download", PDict [("bandwidth", PInt 12500000)]);
          ("upload", PDict [("bandwidth", PInt 1250000)])]
         [("id", PStr "abc")] "abc").
- reflexivity.
- discriminate.
- reflexivity.
- reflexivity.
- reflexivity.
- reflexivity.
- reflexivity.
- reflexivity.
Defined.

(** C4, counterexample.  A request at exactly [cache_until] (180 s) is
    served from the cache: no process is started, nothing changes. *)
Lemma read_at_cache_until_is_fresh :
  cache_until warm = microseconds 180
  /\ updateResults scenario_loads no_float_of_str cfg60
       (microseconds 180) (microseconds 181) TimeoutExpired warm
     = (Ret measured, warm)
  /\ spawned
       (snd (updateResults scenario_loads no_float_of_str cfg60
               (microseconds 180) (microseconds 181) TimeoutExpired warm))
     = spawned warm.
Proof. vm_compute. repeat split. Qed.

(** One microsecond after [cache_until] the request measures again. *)
Lemma stale_iff_after_cache_until_witness :
  (microseconds 180 + 1 <= cache_until warm ->
   updateResults scenario_loads no_float_of_str cfg60
     (microseconds 180 + 1) (microseconds 200) TimeoutExpired warm
   = (Ret (registry warm), warm))
  /\ (microseconds 180 + 1 > cache_until warm <->
      spawned
        (snd (updateResults scenario_loads no_float_of_str cfg60
                (microseconds 180 + 1) (microseconds 200) TimeoutExpired warm))
      = (spawned warm ++ [Spawn (command cfg60) 90])%list).
Proof.
apply (stale_iff_after_cache_until scenario_loads no_float_of_str cfg60
         (microseconds 180 + 1) (microseconds 200) TimeoutExpired warm 90).
- reflexivity.
- reflexivity.
Defined.



(** Two requests with no caching, at 1 s and at 3 s. *)
Lemma zero_cache_probes_every_read_witness :
  spawned
    (snd (serve scenario_loads no_float_of_str cfg0
            [ {| now1 := microseconds 1; now2 := microseconds 2;
                 child := Output payload_text |};
              {| now1 := microseconds 3; now2 := microseconds 4;
                 child := TimeoutExpired |} ] boot))
  = (spawned boot ++ repeat (Spawn (command cfg0) 90) 2)%list.
Proof.
apply (zero_cache_probes_every_read scenario_loads no_float_of_str cfg0 90
         [ {| now1 := microseconds 1; now2 := microseconds 2;
              child := Output payload_text |};
           {| now1 := microseconds 3; now2 := microseconds 4;
              child := TimeoutExpired |} ] boot).
- reflexivity.
- reflexivity.
- reflexivity.
- cbn. unfold microseconds. lia.
Defined.

(** Three requests inside the window that ends at 180 s. *)
Lemma fresh_reads_idempotent_witness :
  let calls :=
    [ {| now1 := microseconds 130; now2 := microseconds 131;
         child := TimeoutExpired |};
      {| now1 := microseconds 150; now2 := microseconds 151;
         child := Output bad_id_text |};
      {| now1 := microseconds 180; now2 := microseconds 181;
         child := CalledProcessError |} ] in
  serve scenario_loads no_float_of_str cfg60 calls warm
  = (map (fun _ => Ret (registry warm)) calls, warm)
  /\ spawned (snd (serve scenario_loads no_float_of_str cfg60 calls warm))
     = spawned warm
  /\ cache_until (snd (serve scenario_loads no_float_of_str cfg60 calls warm))
     = cache_until warm
  /\ registry (snd (serve scenario_loads no_float_of_str cfg60 calls warm))
     = registry warm.
Proof.
apply (fresh_reads_idempotent scenario_loads no_float_of_str cfg60).
repeat constructor; vm_compute; discriminate.
Defined.

(** C8, counterexample.  The request reads the clock at 100 s, the child
    times out, the clock reads 120 s at line 127: the expiry stored is
    180 s, not 100 s + 60 s. *)
Lemma expiry_is_not_read_time_plus_duration :
  cache_until
    (snd (updateResults scenario_loads no_float_of_str cfg60
            (microseconds 100) (microseconds 120) TimeoutExpired boot))
  = microseconds 180
  /\ microseconds 180 <> microseconds 100 + microseconds (cache_seconds cfg60).
Proof. vm_compute. split; [reflexivity|discriminate]. Qed.

Lemma stale_read_stores_expiry_from_second_reading_witness :
  fst (updateResults scenario_loads no_float_of_str cfg60
         (microseconds 100) (microseconds 120) TimeoutExpired boot)
  = Ret zeros
  /\ cache_until
       (snd (updateResults scenario_loads no_float_of_str cfg60
               (microseconds 100) (microseconds 120) TimeoutExpired boot))
     = microseconds 120 + microseconds (cache_seconds cfg60).
Proof.
destruct (stale_read_stores_expiry_from_second_reading
            scenario_loads no_float_of_str cfg60
            (microseconds 100) (microseconds 120) TimeoutExpired boot
            eq_refl) as [_ [Hsentinel _]].
destruct (Hsentinel eq_refl) as [_ [Hstored _]].
exact (Hstored eq_refl).
Defined.

(** The process after [signal_handler], then two requests. *)
Lemma shutdown_short_circuit_witness :
  let calls :=
    [ {| now1 := microseconds 200; now2 := microseconds 201;
         child := Output payload_text |};
      {| now1 := microseconds 300; now2 := microseconds 301;
         child := Output payload_text |} ] in
  runTest scenario_loads (shutdown_event (signal_handler warm)) cfg60
    (Output payload_text) = ([], Ret sentinel)
  /\ spawned (snd (serve scenario_loads no_float_of_str cfg60 calls
                     (signal_handler warm)))
     = spawned (signal_handler warm)
  /\ shutdown_event (snd (serve scenario_loads no_float_of_str cfg60 calls
                            (signal_handler warm)))
     = true.
Proof.
apply (shutdown_short_circuit scenario_loads no_float_of_str cfg60).
reflexivity.
Defined.

(** C10, counterexample.  With [SPEEDTEST_CACHE_FOR=1000000000000] a
    stale request after [signal_handler] overwrites the measured values
    with zeros, then raises at line 127: no expiry is stored.  With a
    duration of 60 s, a request that reads the clock at 200 s and again,
    at line 127, 25 microseconds later stores that second reading plus
    60 s. *)
Lemma shutdown_sentinel_expiry_not_stored :
  updateResults scenario_loads no_float_of_str far_cache
    (microseconds 200) (microseconds 200 + 25) (Output payload_text)
    (signal_handler (with_cache_until 0 warm))
  = (Raise OverflowError,
     {| cache_until := 0;
        registry := zeros;
        shutdown_event := true;
        spawned := spawned warm |})
  /\ cache_until
       (snd (updateResults scenario_loads no_float_of_str cfg60
               (microseconds 200) (microseconds 200 + 25)
               (Output payload_text) (signal_handler warm)))
     = microseconds 260 + 25
  /\ microseconds 260 + 25
     <> microseconds 200 + microseconds (cache_seconds cfg60).
Proof. vm_compute. repeat split. discriminate. Qed.

(** A stale request at 200 s after [signal_handler]: the measured values
    are overwritten with zeros and the expiry moves to 261 s. *)
Lemma shutdown_sentinel_is_cached_witness :
  updateResults scenario_loads no_float_of_str cfg60
    (microseconds 200) (microseconds 201) (Output payload_text)
    (signal_handler warm)
  = (Ret zeros,
     {| cache_until := microseconds 201 + microseconds (cache_seconds cfg60);
        registry := zeros;
        shutdown_event := true;
        spawned := spawned (signal_handler warm) |}).
Proof.
exact (proj1 (shutdown_sentinel_is_cached scenario_loads no_float_of_str cfg60
                (microseconds 200) (microseconds 201) (Output payload_text)
                (signal_handler warm) eq_refl eq_refl)).
Defined.

(* ================================================================= *)
(** ** The further properties on concrete runs *)

Definition pinned : settings :=
  {| cache_seconds := 60; SPEEDTEST_SERVER := Some "1234";
     SPEEDTEST_TIMEOUT := Some "30"; utcoffset := 0 |}.

Definition bad_timeout : settings :=
  {| cache_seconds := 60; SPEEDTEST_SERVER := None;
     SPEEDTEST_TIMEOUT := Some "ninety"; utcoffset := 0 |}.

Definition negative_cache : settings :=
  {| cache_seconds := -5; SPEEDTEST_SERVER := None;
     SPEEDTEST_TIMEOUT := None; utcoffset := 0 |}.

(** [float] on the one string that reaches a gauge in that run. *)
Definition float_of_eight_fives (s : string) : option float64 :=
  if String.eqb s "55555555" then Some (f64 55555555 0) else None.

Definition three_requests : list call :=
  [ {| now1 := microseconds 100; now2 := microseconds 120;
       child := Output payload_text |};
    {| now1 := microseconds 130; now2 := microseconds 131;
       child := TimeoutExpired |};
    {| now1 := microseconds 200; now2 := microseconds 290;
       child := TimeoutExpired |} ].

(** The container's defaults: nothing set, the official binary on the
    path, no signal during start-up. *)
Lemma script_serves_iff_verified_witness :
  Startup.script None Startup.NoSignal (Some "/usr/bin/speedtest")
    (Startup.Version "Speedtest by Ookla 1.2.0.84 (ea6b6773cf) Linux/x86_64")
    None
  = Startup.Serve 9798.
Proof.
apply (proj1 (script_serves_iff_verified None Startup.NoSignal
                (Some "/usr/bin/speedtest")
                (Startup.Version
                   "Speedtest by Ookla 1.2.0.84 (ea6b6773cf) Linux/x86_64")
                None) 9798).
split; [|split; [|split; [|split]]].
- exists 0. reflexivity.
- reflexivity.
- exists "/usr/bin/speedtest". split; [reflexivity|discriminate].
- exists EmptyString, " 1.2.0.84 (ea6b6773cf) Linux/x86_64". reflexivity.
- reflexivity.
Defined.

Lemma command_pins_server_iff_set_witness :
  In "--server-id=1234" (command pinned)
  /\ firstn 5 (command pinned) = base_cmd.
Proof.
destruct (command_pins_server_iff_set pinned "1234") as [Hbase [_ Hpin]].
split; [|exact Hbase].
apply Hpin. split; [reflexivity|discriminate].
Defined.

(** 1.5 bytes per second are 12 bits per second. *)
Lemma bytes_to_bits_normal_double_exact_witness :
  bytes_to_bits (PFloat (S754_finite false 6755399441055744 (-52)))
  = Ret (PFloat (S754_finite false 6755399441055744 (-52 + 3))).
Proof.
apply (bytes_to_bits_normal_double_exact false 6755399441055744 (-52)).
- reflexivity.
- lia.
- lia.
Defined.

Lemma runTest_returns_sentinel_or_success_witness :
  (PInt 12345, PFloat (decimal 15 1), PFloat (decimal 102 1),
   PInt 100000000, PInt 10000000, PInt 1) = sentinel
  \/ exists n j l d u,
       (PInt 12345, PFloat (decimal 15 1), PFloat (decimal 102 1),
        PInt 100000000, PInt 10000000, PInt 1)
       = (PInt n, j, l, d, u, PInt 1).
Proof.
apply (runTest_returns_sentinel_or_success scenario_loads false cfg60
         (Output payload_text)).
vm_compute. reflexivity.
Defined.

Definition bad_id_items : list (string * value) :=
  [("type", PStr "result");
   ("server", PDict [("id", PStr "abc")]);
   ("ping", PDict [("jitter", PFloat (decimal 15 1));
                   ("latency", PFloat (decimal 102 1))]);
   ("download", PDict [("bandwidth", PInt 12500000)]);
   ("upload", PDict [("bandwidth", PInt 1250000)])].

Lemma object_escapes_only_through_server_id_witness :
  lookup "error" bad_id_items = None
  /\ lookup "type" bad_id_items = Some (PStr "result")
  /\ exists srv idv,
       lookup "server" bad_id_items = Some (PDict srv)
       /\ lookup "id" srv = Some idv
       /\ int idv = Raise ValueError
       /\ (ValueError = ValueError \/ ValueError = OverflowError).
Proof.
apply (object_escapes_only_through_server_id bad_id_loads bad_id_text
         bad_id_items).
- discriminate.
- reflexivity.
- vm_compute. reflexivity.
Defined.

(** The output [[]]. *)
Lemma document_not_an_object_witness :
  parse (loads_only "[]" (PList [])) "[]" = Raise AttributeError.
Proof.
apply (document_not_an_object (loads_only "[]" (PList [])) "[]" (PList [])).
- discriminate.
- reflexivity.
- discriminate.
Defined.

Lemma invalid_timeout_fails_every_stale_request_witness :
  serve scenario_loads no_float_of_str bad_timeout three_requests boot
  = (map (fun _ => Raise ValueError) three_requests, boot).
Proof.
apply (invalid_timeout_fails_every_stale_request
         scenario_loads no_float_of_str bad_timeout "ninety").
- reflexivity.
- reflexivity.
- reflexivity.
- repeat constructor.
Defined.

Lemma absorbed_failure_publishes_zeros_witness :
  updateResults scenario_loads no_float_of_str cfg60
    (microseconds 200) (microseconds 290) TimeoutExpired warm
  = (Ret zeros,
     {| cache_until := microseconds 290 + microseconds (cache_seconds cfg60);
        registry := zeros;
        shutdown_event := false;
        spawned := (spawned warm ++ [Spawn (command cfg60) 90])%list |}).
Proof.
exact (absorbed_failure_publishes_zeros scenario_loads no_float_of_str cfg60
         90 (microseconds 200) (microseconds 290) TimeoutExpired warm
         eq_refl eq_refl (or_introl eq_refl) eq_refl).
Defined.

Lemma completed_stale_request_zeros_or_up_witness :
  measured = zeros \/ up measured = fone.
Proof.
apply (completed_stale_request_zeros_or_up scenario_loads no_float_of_str
         cfg60 (microseconds 100) (microseconds 120) (Output payload_text)
         boot).
- reflexivity.
- vm_compute. reflexivity.
Defined.

Lemma raising_request_is_not_cached_witness :
  microseconds 200 > cache_until warm
  /\ cache_until
       (snd (updateResults bad_id_loads no_float_of_str cfg60
               (microseconds 200) (microseconds 220) (Output bad_id_text) warm))
     = cache_until warm
  /\ forall t, microseconds 200 <= t ->
       t > cache_until
             (snd (updateResults bad_id_loads no_float_of_str cfg60
                     (microseconds 200) (microseconds 220)
                     (Output bad_id_text) warm)).
Proof.
apply (raising_request_is_not_cached bad_id_loads no_float_of_str cfg60
         (microseconds 200) (microseconds 220) (Output bad_id_text) warm
         ValueError).
vm_compute. reflexivity.
Defined.

(** A stale request at 100 s whose child prints the bandwidth ["5"]: the
    download gauge shows 55555555 and [up] shows 1, the request fails with
    [TypeError], and the expiry is still the one of start-up. *)
Lemma log_failure_after_publish_witness :
  updateResults text_bandwidth_loads float_of_eight_fives cfg60
    (microseconds 100) (microseconds 120) (Output text_bandwidth_text) boot
  = (Raise TypeError,
     {| cache_until := cache_until boot;
        registry := {| server := f64 12345 0;
                       jitter := decimal 15 1;
                       ping := decimal 102 1;
                       download_speed := f64 55555555 0;
                       upload_speed := f64 10000000 0;
                       up := fone |};
        shutdown_event := shutdown_event boot;
        spawned := (spawned boot ++ [Spawn base_cmd 90])%list |}).
Proof.
apply (log_failure_after_publish text_bandwidth_loads float_of_eight_fives
         cfg60 (microseconds 100) (microseconds 120)
         (Output text_bandwidth_text) boot [Spawn base_cmd 90]
         (PInt 12345) (PFloat (decimal 15 1)) (PFloat (decimal 102 1))
         (PStr "55555555") (PInt 10000000) (PInt 1)).
- reflexivity.
- vm_compute. reflexivity.
- vm_compute. reflexivity.
- reflexivity.
- reflexivity.
- vm_compute. reflexivity.
- vm_compute. reflexivity.
- vm_compute. reflexivity.
- reflexivity.
- reflexivity.
Defined.

Lemma serve_starts_at_most_one_child_per_request_witness :
  exists k, (k <= List.length three_requests)%nat
    /\ spawned (snd (serve scenario_loads no_float_of_str cfg60
                       three_requests boot))
       = (spawned boot ++ repeat (Spawn (command cfg60) 90) k)%list.
Proof.
apply (serve_starts_at_most_one_child_per_request
         scenario_loads no_float_of_str cfg60 90 three_requests boot).
reflexivity.
Defined.

Lemma expiry_never_moves_back_witness :
  cache_until boot
  <= cache_until (snd (serve scenario_loads no_float_of_str cfg60
                         three_requests boot)).
Proof.
apply (expiry_never_moves_back scenario_loads no_float_of_str cfg60
         three_requests boot).
- cbn. lia.
- repeat constructor; cbn; unfold microseconds; lia.
Defined.

Lemma nonpositive_cache_probes_every_read_witness :
  spawned (snd (serve scenario_loads no_float_of_str negative_cache
                  three_requests boot))
  = (spawned boot
     ++ repeat (Spawn (command negative_cache) 90)
          (List.length three_requests))%list.
Proof.
apply (nonpositive_cache_probes_every_read
         scenario_loads no_float_of_str negative_cache 90 three_requests boot).
- cbn. lia.
- reflexivity.
- reflexivity.
- cbn. unfold microseconds. lia.
Defined.

(** Two requests inside the window that ends at 180 s, then one at 200 s,
    all after the signal. *)
Lemma shutdown_serves_cache_then_zeros_witness :
  serve scenario_loads no_float_of_str cfg60
    ([ {| now1 := microseconds 130; now2 := microseconds 131;
          child := Output payload_text |};
       {| now1 := microseconds 180; now2 := microseconds 181;
          child := Output payload_text |} ]
     ++ [ {| now1 := microseconds 200; now2 := microseconds 201;
             child := Output payload_text |} ])
    (signal_handler warm)
  = ((map (fun _ => Ret (registry warm))
        [ {| now1 := microseconds 130; now2 := microseconds 131;
             child := Output payload_text |};
          {| now1 := microseconds 180; now2 := microseconds 181;
             child := Output payload_text |} ]
      ++ [Ret zeros])%list,
     {| cache_until := microseconds 201 + microseconds (cache_seconds cfg60);
        registry := zeros;
        shutdown_event := true;
        spawned := spawned warm |}).
Proof.
assert (Hfresh : Forall (fun k => now1 k <= cache_until warm)
          [ {| now1 := microseconds 130; now2 := microseconds 131;
               child := Output payload_text |};
            {| now1 := microseconds 180; now2 := microseconds 181;
               child := Output payload_text |} ])
  by (repeat constructor; vm_compute; discriminate).
exact (shutdown_serves_cache_then_zeros scenario_loads no_float_of_str cfg60
         _ {| now1 := microseconds 200; now2 := microseconds 201;
              child := Output payload_text |} warm Hfresh eq_refl).
Defined.
